(** * exif-ai: the request-to-metadata pipeline of [src/server.ts]

    A shallow embedding of the HTTP path of exif-ai (multipart decoding,
    provider fan-out, tag clean-up, response assembly) together with the
    merge policy of the library entry point, and the properties the
    specification states about them.

    JavaScript strings are sequences of UTF-16 code units; they are modelled
    as [list N], one number per code unit.  A [Buffer] is a [list byte].
    JavaScript numbers are IEEE 754 doubles; they are modelled as [float]. *)

From Stdlib Require Import NArith ZArith List Bool Lia.
From Stdlib.Strings Require Import Ascii String Byte.
From Stdlib Require Import DecimalString Floats.
From stdpp Require Import base option list gmap.

Import ListNotations.
Local Open Scope nat_scope.

(** ** JavaScript strings *)

Module JS.

Abbreviation str := (list N).

(** A literal: the code units of an ASCII text. *)
Definition lit (s : string) : str :=
  List.map N_of_ascii (list_ascii_of_string s).

Definition CR : N := 13.
Definition LF : N := 10.
Definition SP : N := 32.
Definition QUOTE : N := 34.
Definition CRLF : str := [CR; LF].

Definition inRange (lo hi c : N) : bool := (lo <=? c)%N && (c <=? hi)%N.

(** [\d] *)
Definition isDigit (c : N) : bool := inRange 48 57 c.

(** [\w], i.e. [[A-Za-z0-9_]] *)
Definition isWord (c : N) : bool :=
  inRange 65 90 c || inRange 97 122 c || isDigit c || (c =? 95)%N.

(** [\s], which is also the set removed by [String.prototype.trim]:
    WhiteSpace and LineTerminator code units. *)
Definition isSpace (c : N) : bool :=
  inRange 9 13 c || (c =? 32)%N || (c =? 160)%N || (c =? 5760)%N
  || inRange 8192 8202 c || (c =? 8232)%N || (c =? 8233)%N
  || (c =? 8239)%N || (c =? 8287)%N || (c =? 12288)%N || (c =? 65279)%N.

Fixpoint dropWhile (p : N -> bool) (s : str) : str :=
  match s with
  | [] => []
  | c :: s' => if p c then dropWhile p s' else s
  end.

Fixpoint takeWhile (p : N -> bool) (s : str) : str :=
  match s with
  | [] => []
  | c :: s' => if p c then c :: takeWhile p s' else []
  end.

Definition dropWhileEnd (p : N -> bool) (s : str) : str :=
  rev (dropWhile p (rev s)).

(** [s.trim()] *)
Definition trim (s : str) : str := dropWhileEnd isSpace (dropWhile isSpace s).

(** [stripPrefix p s] is the rest of [s] after [p] when [s] starts with [p]. *)
Fixpoint stripPrefix (p s : str) : option str :=
  match p, s with
  | [], _ => Some s
  | _ :: _, [] => None
  | a :: p', b :: s' => if (a =? b)%N then stripPrefix p' s' else None
  end.

Definition startsWith (p s : str) : bool :=
  match stripPrefix p s with Some _ => true | None => false end.

(** The first occurrence of [sep] in [s]: the text before it and after it. *)
Fixpoint breakOn (sep s : str) : option (str * str) :=
  match stripPrefix sep s with
  | Some rest => Some ([], rest)
  | None =>
      match s with
      | [] => None
      | c :: s' =>
          match breakOn sep s' with
          | Some (a, b) => Some (c :: a, b)
          | None => None
          end
      end
  end.

(** [s.includes(sub)] *)
Definition includes (sub s : str) : bool :=
  match breakOn sub s with Some _ => true | None => false end.

Fixpoint splitFuel (fuel : nat) (sep s : str) : list str :=
  match fuel with
  | O => [s]
  | S fuel' =>
      match breakOn sep s with
      | Some (a, b) => a :: splitFuel fuel' sep b
      | None => [s]
      end
  end.

(** [s.split(sep)] for a string separator.  With the empty separator
    JavaScript yields the code units one by one. *)
Definition split (sep s : str) : list str :=
  match sep with
  | [] => List.map (fun c => [c]) s
  | _ :: _ => splitFuel (length s) sep s
  end.

(** [s.split(/[...]/)] for a character class: one cut per matching unit. *)
Fixpoint splitChars (isSep : N -> bool) (s : str) : list str :=
  match s with
  | [] => [[]]
  | c :: s' =>
      if isSep c then [] :: splitChars isSep s'
      else match splitChars isSep s' with
           | p :: ps => (c :: p) :: ps
           | [] => [[c]]
           end
  end.

(** [l.join(sep)] *)
Fixpoint join (sep : str) (l : list str) : str :=
  match l with
  | [] => []
  | [a] => a
  | a :: l' => a ++ sep ++ join sep l'
  end.

(** [s.replace(/\r\n$/, '')]: without the [m] flag [$] is the end of input. *)
Definition dropFinalCRLF (s : str) : str :=
  match stripPrefix (rev CRLF) (rev s) with
  | Some r => rev r
  | None => s
  end.

(** [x || d] on a possibly undefined string: the empty string is falsy. *)
Definition orElse (x : option str) (d : option str) : option str :=
  match x with
  | Some (_ :: _) => x
  | _ => d
  end.

Definition truthy (x : option str) : bool :=
  match x with Some (_ :: _) => true | _ => false end.

End JS.

Import JS.

(** ** Tag clean-up ([handleRequest], the block that parses the tags from
    the provider's text answer and cleans them) *)

Module Tags.

(** [/[,\n;|]/] *)
Definition isDelim (c : N) : bool :=
  (c =? 44)%N || (c =? 10)%N || (c =? 59)%N || (c =? 124)%N.

(** The class of the prefix pattern of the clean-up: asterisk, hyphen,
    bullet (U+2022), [\d], dot, closing parenthesis, bracket, brace and
    angle, double quote, single quote, backquote. *)
Definition isLeadChar (c : N) : bool :=
  (c =? 42)%N || (c =? 45)%N || (c =? 8226)%N || isDigit c || (c =? 46)%N
  || (c =? 41)%N || (c =? 93)%N || (c =? 125)%N || (c =? 62)%N
  || (c =? 34)%N || (c =? 39)%N || (c =? 96)%N.

(** The class of the suffix pattern of the clean-up: asterisk, the three
    quote marks, opening and closing bracket, brace and angle. *)
Definition isTailChar (c : N) : bool :=
  (c =? 42)%N || (c =? 34)%N || (c =? 39)%N || (c =? 96)%N || (c =? 91)%N
  || (c =? 123)%N || (c =? 60)%N || (c =? 93)%N || (c =? 125)%N
  || (c =? 62)%N.

(** First [.replace]: [^], a non-empty run of the prefix class, then
    [\s*]; both greedy, nothing follows them. *)
Definition stripLead (s : str) : str :=
  match takeWhile isLeadChar s with
  | [] => s
  | _ :: _ => dropWhile isSpace (dropWhile isLeadChar s)
  end.

(** Second [.replace]: the longest run of the suffix class that reaches
    the end of the text. *)
Definition stripTail (s : str) : str := dropWhileEnd isTailChar s.

(** [.replace(/[^\w\s]/g, ' ')] *)
Definition blankNonWord (s : str) : str :=
  List.map (fun c => if isWord c || isSpace c then c else SP) s.

(** [.replace(/\s+/g, ' ')]; [inRun] tells that the previous unit was
    white space, already replaced. *)
Fixpoint collapseFrom (inRun : bool) (s : str) : str :=
  match s with
  | [] => []
  | c :: s' =>
      if isSpace c then
        if inRun then collapseFrom true s' else SP :: collapseFrom true s'
      else c :: collapseFrom false s'
  end.

Definition collapseSpaces (s : str) : str := collapseFrom false s.

(** The body of the [.map] callback. *)
Definition cleanTag (tag : str) : str :=
  trim (collapseSpaces (blankNonWord (stripTail (stripLead tag)))).

(** The [.filter] callback. *)
Definition keepTag (tag : str) : bool :=
  let wordCount := length (split [SP] tag) in
  (0 <? length tag) && (length tag <=? 50) && (wordCount <=? 2).

(** [tagsText.split(/[,\n;|]/).map(tag => tag.trim())] *)
Definition rawTags (tagsText : str) : list str :=
  List.map trim (splitChars isDelim tagsText).

(** The clean tag list of a provider answer. *)
Definition normalizeTags (tagsText : str) : list str :=
  firstn 20 (List.filter keepTag (List.map cleanTag (rawTags tagsText))).

(** The number of white-space separated words of a text: the non-empty
    pieces between white-space units. *)
Definition words (s : str) : list str :=
  List.filter (fun w => 0 <? length w) (splitChars isSpace s).

(** *** The shape of a clean tag *)

(** A unit of a clean tag: a word character or the plain space. *)
Definition tagUnit (c : N) : Prop := isWord c = true \/ c = SP.

(** White space occurs one unit at a time and is the plain space;
    [afterSpace] tells that a white-space unit comes just before. *)
Fixpoint spaced (afterSpace : bool) (s : str) : Prop :=
  match s with
  | [] => True
  | c :: s' =>
      if isSpace c then afterSpace = false /\ c = SP /\ spaced true s'
      else spaced false s'
  end.

(** What every result of [cleanTag] looks like. *)
Record Clean (t : str) : Prop := {
  clean_units : Forall tagUnit t;
  clean_spaced : spaced false t;
  clean_head : forall c, head t = Some c -> isSpace c = false;
  clean_last : forall c, head (rev t) = Some c -> isSpace c = false
}.

End Tags.

Import Tags.

(** ** Multipart decoding ([parseMultipartData]) *)

(** What a call yields: a value, or the error it throws (a promise that
    resolves or rejects). *)
Inductive outcome (A : Type) : Type :=
| Returned (a : A)
| Thrown (message : str).
Arguments Returned {A} a.
Arguments Thrown {A} message.

Module Multipart.

(** [buffer.toString('binary')]: one code unit per byte (latin1). *)
Definition toBinaryString (b : list byte) : str := List.map Byte.to_N b.

(** [Buffer.from(s, 'binary')]: the low eight bits of each code unit. *)
Definition lowByte (c : N) : byte :=
  match Byte.of_N (c mod 256) with Some b => b | None => x00 end.
Definition fromBinaryString (s : str) : list byte := List.map lowByte s.

(** The decoded form: the two objects [fields] and [files]. *)
Record Form : Type := {
  fields : gmap (list N) (list N);
  files : gmap (list N) (list byte)
}.

Definition emptyForm : Form := {| fields := ∅; files := ∅ |}.

Definition notQuote (c : N) : bool := negb (c =? QUOTE)%N.

(** After the opening quote of an attribute: a non-empty run of units
    other than the quote, closed by a quote; the run is the capture. *)
Definition quoted (s : str) : option str :=
  match takeWhile notQuote s, dropWhile notQuote s with
  | c :: v, _ :: _ => Some (c :: v)
  | _, _ => None
  end.

(** [s.match(/key([^Q]+)Q/)] where [key] ends with the quote [Q]: the
    capture of the leftmost match, tried at every position in turn. *)
Fixpoint matchAttr (key s : str) : option str :=
  let here :=
    match stripPrefix key s with
    | Some rest => quoted rest
    | None => None
    end in
  match here with
  | Some v => Some v
  | None =>
      match s with
      | [] => None
      | _ :: s' => matchAttr key s'
      end
  end.

Definition nameKey : str := lit "name=" ++ [QUOTE].
Definition filenameKey : str := lit "filename=" ++ [QUOTE].
Definition blankLine : str := CRLF ++ CRLF.
Definition formData : str := lit "Content-Disposition: form-data".

(** The one name at which an assignment [object[name] = value] does not
    store a property of the object itself: it goes to the prototype setter,
    which ignores a text and takes a buffer as the new prototype. *)
Definition protoKey : str := lit "__proto__".

(** The body of the loop over the parts.  [fields] and [files] hold the
    properties of the two objects themselves. *)
Definition decodePart (form : Form) (part : str) : Form :=
  if includes formData part then
    let pieces := split blankLine part in
    let headers := hd [] pieces in
    let content := trim (join blankLine (tl pieces)) in
    let nameMatch := matchAttr nameKey headers in
    let filenameMatch := matchAttr filenameKey headers in
    match nameMatch with
    | Some fieldName =>
        if bool_decide (fieldName = protoKey) then form else
        match filenameMatch with
        | Some _ =>
            let binaryContent := dropFinalCRLF content in
            {| fields := fields form;
               files := <[fieldName := fromBinaryString binaryContent]> (files form) |}
        | None =>
            {| fields := <[fieldName := dropFinalCRLF content]> (fields form);
               files := files form |}
        end
    | None => form
    end
  else form.

(** [req.headers['content-type']?.split('boundary=')[1]] *)
Definition boundaryOf (contentType : option str) : option str :=
  match contentType with
  | Some ct => nth_error (split (lit "boundary=") ct) 1
  | None => None
  end.

Definition noBoundary : str := lit "No boundary found in content-type".

(** The handler of the request's [end] event, on the chunks received. *)
Definition parseMultipartData (contentType : option str)
    (chunks : list (list byte)) : outcome Form :=
  let buffer := List.concat chunks in
  match boundaryOf contentType with
  | Some (c :: b) =>
      let boundary := c :: b in
      let parts := split (lit "--" ++ boundary) (toBinaryString buffer) in
      Returned (fold_left decodePart parts emptyForm)
  | _ => Thrown noBoundary
  end.


End Multipart.

Import Multipart.

(** ** The request handler ([handleRequest]) *)

Module Server.

(** The process-wide configuration read from the environment. *)
Record Config : Type := {
  PROVIDER : str;
  MODEL : option str;
  DESCRIPTION_PROMPT : option str;
  TAG_PROMPT : option str;
  TASKS : list str;
  VERBOSE : bool
}.

(** The argument of the two provider calls. *)
Record GenArgs : Type := {
  buffer : list byte;
  model : option str;
  prompt : str;
  provider : str
}.

(** What a provider call resolves to.  [totalTokens] is a number, or
    [None] when it is undefined. *)
Record Usage : Type := { totalTokens : option float }.
Record GenResult : Type := { text : option str; usage : option Usage }.

(** The numbers that count as false: 0, -0 and NaN. *)
Definition falsyNumber (x : float) : bool :=
  PrimFloat.is_zero x || PrimFloat.is_nan x.

(** [result.usage?.totalTokens || 0] *)
Definition tokensOf (r : GenResult) : float :=
  match usage r with
  | Some u =>
      match totalTokens u with
      | Some n => if falsyNumber n then 0%float else n
      | None => 0%float
      end
  | None => 0%float
  end.

(** The local variables of the processing block. *)
Module Vars.
Record t : Type := {
  description : str;
  tags : list str;
  rawTagsText : option str;
  totalTokensUsed : float;
  descriptionTokens : float;
  tagsTokens : float
}.
Definition init : t :=
  {| description := []; tags := []; rawTagsText := Some [];
     totalTokensUsed := 0%float; descriptionTokens := 0%float;
     tagsTokens := 0%float |}.
End Vars.

Record TokenUsage : Type := {
  usageDescription : float;
  usageTags : float;
  usageTotal : float
}.

(** The JSON object of a successful [/process] answer. *)
Module Reply.
Record t : Type := {
  success : bool;
  description : str;
  tags : list str;
  rawTagsText : option str;
  provider : str;
  model : str;
  tasks : list str;
  tokenUsage : option TokenUsage
}.
End Reply.

Inductive Body : Type :=
| ProcessBody (r : Reply.t)
| ErrorBody (error : str) (details : option str)
| MessageBody (message : str)
| HealthBody (status : str) (error : option str).

Record Response : Type := { statusCode : N; body : Body }.

Record Request : Type := {
  method : str;
  pathname : str;
  contentType : option str;
  chunks : list (list byte)
}.

Definition streq (a b : str) : bool := bool_decide (a = b).

(** [array.includes(x)] *)
Definition hasTask (x : str) (l : list str) : bool := existsb (streq x) l.

Definition orDefault (x : option str) (d : str) : str :=
  match orElse x None with Some s => s | None => d end.

Definition defaultDescriptionPrompt : str := lit "Describe this image in detail.".
Definition defaultTagPrompt : str :=
  lit "Output only the most relevant one or two word tags separated by commas. No text before or after. Example: mountain, sky, night, stars".

Section Handler.

Variable cfg : Config.
(** The two functions imported from the provider module. *)
Variable getDescriptionWithUsage : GenArgs -> outcome GenResult.
Variable getTagsWithUsage : GenArgs -> outcome GenResult.
(** [writeFile] of the image to the temporary file, the import of the
    provider module and [readFile] of the temporary file: the bytes
    read back, or the error one of them throws. *)
Variable stage : list byte -> outcome (list byte).
(** What [checkProviderHealth] finds on the network. *)
Variable checkProviderHealth : outcome (str * option str).

Definition sendResponse (statusCode : N) (data : Body) : Response :=
  {| statusCode := statusCode; body := data |}.

Definition sendError (statusCode : N) (message : str)
    (error : option str) : Response :=
  sendResponse statusCode
    (ErrorBody message (if VERBOSE cfg then error else None)).

(** The description block with its [try]/[catch]. *)
Definition describeStep (args : GenArgs) (st : Vars.t) : Vars.t :=
  match getDescriptionWithUsage args with
  | Returned descResult =>
      let n := tokensOf descResult in
      {| Vars.description := orDefault (text descResult) [];
         Vars.tags := Vars.tags st;
         Vars.rawTagsText := Vars.rawTagsText st;
         Vars.totalTokensUsed := (Vars.totalTokensUsed st + n)%float;
         Vars.descriptionTokens := n;
         Vars.tagsTokens := Vars.tagsTokens st |}
  | Thrown _ => st
  end.

(** The tag block with its [try]/[catch].  When the answer has no text,
    [tagsText.split] throws after the raw text and the token counts
    were stored. *)
Definition tagStep (args : GenArgs) (st : Vars.t) : Vars.t :=
  match getTagsWithUsage args with
  | Returned tagsResult =>
      let n := tokensOf tagsResult in
      {| Vars.description := Vars.description st;
         Vars.tags :=
           match text tagsResult with
           | Some tagsText => normalizeTags tagsText
           | None => Vars.tags st
           end;
         Vars.rawTagsText := text tagsResult;
         Vars.totalTokensUsed := (Vars.totalTokensUsed st + n)%float;
         Vars.descriptionTokens := Vars.descriptionTokens st;
         Vars.tagsTokens := n |}
  | Thrown _ => st
  end.

(** The request overrides of the configuration. *)
Definition requestTasks (fields : gmap (list N) (list N)) : list str :=
  match orElse (fields !! lit "tasks") None with
  | Some t => split (lit ",") t
  | None => TASKS cfg
  end.
Definition requestProvider (fields : gmap (list N) (list N)) : str :=
  orDefault (fields !! lit "provider") (PROVIDER cfg).
Definition requestModel (fields : gmap (list N) (list N)) : option str :=
  orElse (fields !! lit "model") (MODEL cfg).
Definition requestDescriptionPrompt (fields : gmap (list N) (list N)) : option str :=
  orElse (fields !! lit "descriptionPrompt") (DESCRIPTION_PROMPT cfg).
Definition requestTagPrompt (fields : gmap (list N) (list N)) : option str :=
  orElse (fields !! lit "tagPrompt") (TAG_PROMPT cfg).

Definition wantsDescription (fields : gmap (list N) (list N)) : bool :=
  hasTask (lit "description") (requestTasks fields).
Definition wantsTags (fields : gmap (list N) (list N)) : bool :=
  hasTask (lit "tag") (requestTasks fields)
  || hasTask (lit "tags") (requestTasks fields).

Definition descriptionArgs (fields : gmap (list N) (list N))
    (imageBufferForAI : list byte) : GenArgs :=
  {| buffer := imageBufferForAI; model := requestModel fields;
     prompt := orDefault (requestDescriptionPrompt fields) defaultDescriptionPrompt;
     provider := requestProvider fields |}.
Definition tagArgs (fields : gmap (list N) (list N))
    (imageBufferForAI : list byte) : GenArgs :=
  {| buffer := imageBufferForAI; model := requestModel fields;
     prompt := orDefault (requestTagPrompt fields) defaultTagPrompt;
     provider := requestProvider fields |}.

(** The two task blocks, one after the other, on the fresh variables. *)
Definition runTasks (fields : gmap (list N) (list N))
    (imageBufferForAI : list byte) : Vars.t :=
  let st1 :=
    if wantsDescription fields then
      describeStep (descriptionArgs fields imageBufferForAI) Vars.init
    else Vars.init in
  if wantsTags fields then tagStep (tagArgs fields imageBufferForAI) st1
  else st1.

(** The processing block: from the request overrides to the answer. *)
Definition processImage (fields : gmap (list N) (list N))
    (imageBufferForAI : list byte) : Response :=
  let st := runTasks fields imageBufferForAI in
  sendResponse 200
    (ProcessBody
       {| Reply.success := true;
          Reply.description := Vars.description st;
          Reply.tags := Vars.tags st;
          Reply.rawTagsText := Vars.rawTagsText st;
          Reply.provider := requestProvider fields;
          Reply.model := orDefault (requestModel fields) (lit "default");
          Reply.tasks := requestTasks fields;
          Reply.tokenUsage :=
            if (0 <? Vars.totalTokensUsed st)%float then
              Some {| usageDescription := Vars.descriptionTokens st;
                      usageTags := Vars.tagsTokens st;
                      usageTotal := Vars.totalTokensUsed st |}
            else None |}).

Definition handleRequest (req : Request) : Response :=
  if streq (method req) (lit "OPTIONS") then
    sendResponse 200 (MessageBody (lit "OK"))
  else if streq (pathname req) (lit "/health") && streq (method req) (lit "GET") then
    match checkProviderHealth with
    | Returned (status, error) =>
        sendResponse (if streq status (lit "healthy") then 200 else 503)%N
          (HealthBody status error)
    | Thrown message =>
        sendResponse 503
          (HealthBody (lit "unhealthy")
             (Some (match message with [] => lit "Health check failed" | _ => message end)))
    end
  else if streq (pathname req) (lit "/process") && streq (method req) (lit "POST") then
    if negb (includes (lit "multipart/form-data") (orDefault (contentType req) [])) then
      sendError 400 (lit "Content-Type must be multipart/form-data") None
    else
      match parseMultipartData (contentType req) (chunks req) with
      | Thrown e => sendError 500 (lit "Internal server error") (Some e)
      | Returned form =>
          match files form !! lit "image" with
          | None => sendError 400 (lit "No image file provided in 'image' field") None
          | Some imageBuffer =>
              match stage imageBuffer with
              | Thrown e => sendError 500 (lit "Internal server error") (Some e)
              | Returned imageBufferForAI =>
                  processImage (fields form) imageBufferForAI
              end
          end
      end
  else sendError 404 (lit "Not found") None.

(** The request reaches the processing block with these fields and these
    image bytes. *)
Definition accepted (req : Request) (fields : gmap (list N) (list N))
    (imageBufferForAI : list byte) : Prop :=
  method req = lit "POST" /\ pathname req = lit "/process" /\
  includes (lit "multipart/form-data") (orDefault (contentType req) []) = true /\
  exists form imageBuffer,
    parseMultipartData (contentType req) (chunks req) = Returned form /\
    Multipart.fields form = fields /\
    files form !! lit "image" = Some imageBuffer /\
    stage imageBuffer = Returned imageBufferForAI.

End Handler.

(** What each task contributes on its own: the description of an answer,
    the tag list of an answer, and the tokens it reports; a call that
    throws contributes the empty text, no tag and no token. *)
Definition descriptionOf (o : outcome GenResult) : str :=
  match o with
  | Returned r => orDefault (text r) []
  | Thrown _ => []
  end.

Definition tagsOf (o : outcome GenResult) : list str :=
  match o with
  | Returned r =>
      match text r with Some t => normalizeTags t | None => [] end
  | Thrown _ => []
  end.

(** The tokens a task counts for: the [usage.totalTokens] that the answer
    of the provider reports.  It is 0 when the task is not requested, when
    the call fails, when the answer has no usage or the usage no count, and
    when the count is NaN or zero. *)
Definition reportedTokens (requested : bool) (o : outcome GenResult) : float :=
  match requested, o with
  | true, Returned {| usage := Some {| totalTokens := Some n |} |} =>
      if PrimFloat.is_nan n then 0%float
      else if PrimFloat.is_zero n then 0%float
      else n
  | _, _ => 0%float
  end.

Definition failed {A} (o : outcome A) : Prop := exists e, o = Thrown e.

End Server.

Import Server.

(** ** The merge policy of the library entry point ([execute])

    [execute] lives in [index.ts], which is not among the sources at hand;
    only its tests are.  Its model follows sections 4.4 and 4.5 of the
    specification. *)

Module Library.

(** Modelled from the spec: the MetadataDocument of section 3, the fields
    that hold a value, by name. *)
Abbreviation Document := (gmap (list N) (list N)).

(** Modelled from the spec: the per-field rule of the merge policy of
    [execute] (section 4.4).  With [avoidOverwrite] a field that already
    holds a non-empty value is left untouched; otherwise the field is set
    to the generated text. *)
Definition mergeField (avoidOverwrite : bool) (generated : str)
    (doc : Document) (field : str) : Document :=
  if avoidOverwrite && truthy (doc !! field) then doc
  else <[field := generated]> doc.

(** Modelled from the spec: [merge(document, generatedDescription?,
    avoidOverwrite)] of section 4.4, the merge step of [execute], over the
    list of targeted fields.  When nothing was generated every field is
    left at its pre-existing value. *)
Definition merge (targets : list str) (doc : Document)
    (generated : option str) (avoidOverwrite : bool) : Document :=
  match generated with
  | Some g => fold_left (mergeField avoidOverwrite g) targets doc
  | None => doc
  end.

(** Modelled from the spec: the image file that owns the document, its
    bytes and its metadata. *)
Record Image : Type := { content : list byte; document : Document }.

Inductive Task : Type := Description | Tag.

(** Modelled from the spec: the options of a direct invocation of
    [execute] (section 6). *)
Record Options : Type := {
  path : str;
  provider : str;
  model : option str;
  descriptionTags : list str;
  descriptionPrompt : str;
  tagPrompt : str;
  tasks : list Task;
  avoidOverwrite : bool;
  dry : bool
}.

Definition setDry (b : bool) (o : Options) : Options :=
  {| path := path o; provider := provider o; model := model o;
     descriptionTags := descriptionTags o;
     descriptionPrompt := descriptionPrompt o; tagPrompt := tagPrompt o;
     tasks := tasks o; avoidOverwrite := avoidOverwrite o; dry := b |}.

Definition hasTask (t : Task) (l : list Task) : bool :=
  existsb (fun u => match t, u with
                    | Description, Description | Tag, Tag => true
                    | _, _ => false
                    end) l.

Section Execute.

(** Modelled from the spec: the provider dispatch
    [generate(task, bytes, model, prompt, providerId)] of section 4.2,
    an external collaborator. *)
Variable generate : Task -> list byte -> option str -> str -> str -> outcome str.
(** The metadata slot of the tags and the delimiter that joins them;
    the specification names neither. *)
Variable tagSlot : str.
Variable tagDelimiter : str.

(** Modelled from the spec: a failed task degrades to the empty result
    (section 4.5). *)
Definition degrade (o : outcome str) : str :=
  match o with Returned s => s | Thrown _ => [] end.

Definition nonEmpty (s : str) : option str :=
  match s with [] => None | _ :: _ => Some s end.

(** Modelled from the spec: the document [execute] would write, from
    the decode to the merge (section 4.5): each requested task runs on
    its own, a failure counts as an empty result, and the merge uses
    the tasks that produced non-empty output. *)
Definition wouldBe (o : Options) (img : Image) : Document :=
  let description :=
    if hasTask Description (tasks o) then
      degrade (generate Description (content img) (model o)
                 (descriptionPrompt o) (provider o))
    else [] in
  let tagSet :=
    if hasTask Tag (tasks o) then
      normalizeTags (degrade (generate Tag (content img) (model o)
                                (tagPrompt o) (provider o)))
    else [] in
  let doc1 := merge (descriptionTags o) (document img)
                (nonEmpty description) (avoidOverwrite o) in
  merge [tagSlot] doc1 (nonEmpty (join tagDelimiter tagSet)) (avoidOverwrite o).

(** Modelled from the spec: [execute] of [index.ts] on a store of image
    files (sections 4.4 and 4.5).  It yields the would-be document and
    the store afterwards; the write is skipped in dry mode.  A missing
    file is rejected before any generation. *)
Definition execute (o : Options) (store : gmap (list N) Image)
    : outcome Document * gmap (list N) Image :=
  match store !! path o with
  | None => (Thrown (lit "file not found"), store)
  | Some img =>
      let doc := wouldBe o img in
      (Returned doc,
       if dry o then store
       else <[path o := {| content := content img; document := doc |}]> store)
  end.

End Execute.

End Library.

(** ** Start-up configuration (the constants at the top of [server.ts]) *)

Module Startup.

(** The configuration read from [process.env], an object from variable
    names to texts.  [PORT] only feeds [server.listen] and is left out. *)
Definition loadConfig (env : gmap (list N) (list N)) : Config :=
  {| PROVIDER := orDefault (env !! lit "EXIF_AI_PROVIDER") (lit "ollama");
     MODEL := env !! lit "EXIF_AI_MODEL";
     DESCRIPTION_PROMPT := env !! lit "EXIF_AI_DESCRIPTION_PROMPT";
     TAG_PROMPT := env !! lit "EXIF_AI_TAG_PROMPT";
     TASKS :=
       match orElse (env !! lit "EXIF_AI_TASKS") None with
       | Some t => split (lit ",") t
       | None => [lit "description"; lit "tag"]
       end;
     VERBOSE := bool_decide (env !! lit "EXIF_AI_VERBOSE" = Some (lit "true")) |}.

End Startup.

(** ** The provider health check ([checkProviderHealth]) *)

Module Health.

(** The argument of [fetch]; the method is always GET. *)
Record FetchRequest : Type := {
  url : str;
  headers : list (str * str)
}.

(** What the health check reads of the answer of [fetch]. *)
Record FetchResponse : Type := {
  ok : bool;
  status : N;
  statusText : str
}.

(** A number inside a template literal: its decimal digits. *)
Definition decimal (n : N) : str :=
  lit (NilEmpty.string_of_uint (N.to_uint n)).

(** The two shapes of a health status: the [status] text and the optional
    [error] text (the [provider], [model] and [tasks] of the answer repeat
    the configuration). *)
Definition healthy : str * option str := (lit "healthy", None).
Definition unhealthy (error : str) : str * option str :=
  (lit "unhealthy", Some error).

Definition jsonHeader : str * str := (lit "Content-Type", lit "application/json").

Section Probe.

Variable cfg : Config.
Variable env : gmap (list N) (list N).
(** [String.prototype.toLowerCase], with its Unicode tables. *)
Variable toLowerCase : str -> str.
Variable fetch : FetchRequest -> outcome FetchResponse.
(** The import of the provider module followed by [getModel(PROVIDER,
    MODEL)]: whether the model instance is truthy, or the error thrown. *)
Variable getModel : str -> option str -> outcome bool.

(** [await fetch(...)] and the test of [response.ok] that follows it. *)
Definition probe (request : FetchRequest) (what : str)
    : outcome (str * option str) :=
  match fetch request with
  | Returned response =>
      Returned
        (if ok response then healthy
         else unhealthy (what ++ lit " error: " ++ decimal (status response)
                         ++ lit " " ++ statusText response))
  | Thrown e => Thrown e
  end.

(** The body of the outer [try]. *)
Definition checkBody : outcome (str * option str) :=
  if streq (PROVIDER cfg) (lit "test") then Returned healthy
  else
    let p := toLowerCase (PROVIDER cfg) in
    if streq p (lit "google") then
      match orElse (env !! lit "GOOGLE_GENERATIVE_AI_API_KEY")
              (orElse (env !! lit "API_KEY") (env !! lit "GOOGLE_API_KEY")) with
      | Some (c :: k) =>
          probe
            {| url := lit "https://generativelanguage.googleapis.com/v1beta/models?key="
                      ++ c :: k;
               headers := [jsonHeader] |}
            (lit "Google API")
      | _ => Returned (unhealthy (lit "Google API key not found"))
      end
    else if streq p (lit "openai") then
      match env !! lit "OPENAI_API_KEY" with
      | Some (c :: k) =>
          let baseURL :=
            orDefault (env !! lit "OPENAI_BASE_URL") (lit "https://api.openai.com") in
          probe
            {| url := baseURL ++ lit "/v1/models";
               headers := [(lit "Authorization", lit "Bearer " ++ c :: k); jsonHeader] |}
            (lit "OpenAI API")
      | _ => Returned (unhealthy (lit "OpenAI API key not found"))
      end
    else if streq p (lit "ollama") then
      let baseURL :=
        orDefault (env !! lit "OLLAMA_BASE_URL") (lit "http://localhost:11434") in
      probe {| url := baseURL ++ lit "/api/tags"; headers := [] |}
        (lit "Ollama server")
    else if streq p (lit "anthropic") then
      match env !! lit "ANTHROPIC_API_KEY" with
      | Some (c :: k) =>
          if startsWith (lit "sk-ant-") (c :: k) then Returned healthy
          else Returned (unhealthy (lit "Invalid Anthropic API key format"))
      | _ => Returned (unhealthy (lit "Anthropic API key not found"))
      end
    else
      match getModel (PROVIDER cfg) (MODEL cfg) with
      | Returned true => Returned healthy
      | Returned false => Returned (unhealthy (lit "Failed to create model instance"))
      | Thrown e =>
          Returned (unhealthy (lit "Provider initialization error: " ++ e))
      end.

(** [checkProviderHealth]: the outer [catch] turns every error into an
    unhealthy status. *)
Definition checkProviderHealth : str * option str :=
  match checkBody with
  | Returned h => h
  | Thrown e =>
      unhealthy (orDefault (Some e) (lit "Unknown error connecting to provider"))
  end.

End Probe.

End Health.

(** ** The first revision of the request handler

    [server.ts] holds two revisions of the server.  The first one calls
    [getDescription] and [getTags], passes the tags on as they come and
    answers the health route without looking at the provider. *)

Module Legacy.

(** What [getTags] resolves to: an array of tags, or a single value that
    may be undefined. *)
Inductive TagsResult : Type :=
| TagArray (l : list str)
| TagValue (s : option str).

Definition defaultTagPrompt : str := lit "Generate relevant tags for this image.".

Section Handler.

Variable cfg : Config.
Variable getDescription : GenArgs -> outcome (option str).
Variable getTags : GenArgs -> outcome TagsResult.
Variable stage : list byte -> outcome (list byte).

(** [await getDescription(...) || ''] inside its [try]. *)
Definition describe (args : GenArgs) : str :=
  match getDescription args with
  | Returned d => orDefault d []
  | Thrown _ => []
  end.

(** [Array.isArray(tagsResult) ? tagsResult : [tagsResult].filter(Boolean)]
    inside its [try]. *)
Definition tag (args : GenArgs) : list str :=
  match getTags args with
  | Returned (TagArray l) => l
  | Returned (TagValue (Some (c :: s))) => [c :: s]
  | Returned (TagValue _) => []
  | Thrown _ => []
  end.

(** The processing block.  The answer has neither [rawTagsText] nor
    [tokenUsage]. *)
Definition processImage (fields : gmap (list N) (list N))
    (imageBufferForAI : list byte) : Response :=
  let description :=
    if wantsDescription cfg fields then
      describe (descriptionArgs cfg fields imageBufferForAI)
    else [] in
  let tags :=
    if wantsTags cfg fields then
      tag {| buffer := imageBufferForAI; model := requestModel cfg fields;
             prompt := orDefault (requestTagPrompt cfg fields) defaultTagPrompt;
             Server.provider := requestProvider cfg fields |}
    else [] in
  sendResponse 200
    (ProcessBody
       {| Reply.success := true;
          Reply.description := description;
          Reply.tags := tags;
          Reply.rawTagsText := None;
          Reply.provider := requestProvider cfg fields;
          Reply.model := orDefault (requestModel cfg fields) (lit "default");
          Reply.tasks := requestTasks cfg fields;
          Reply.tokenUsage := None |}).

Definition handleRequest (req : Request) : Response :=
  if streq (method req) (lit "OPTIONS") then
    sendResponse 200 (MessageBody (lit "OK"))
  else if streq (pathname req) (lit "/health") && streq (method req) (lit "GET") then
    sendResponse 200 (HealthBody (lit "healthy") None)
  else if streq (pathname req) (lit "/process") && streq (method req) (lit "POST") then
    if negb (includes (lit "multipart/form-data") (orDefault (contentType req) [])) then
      sendError cfg 400 (lit "Content-Type must be multipart/form-data") None
    else
      match parseMultipartData (contentType req) (chunks req) with
      | Thrown e => sendError cfg 500 (lit "Internal server error") (Some e)
      | Returned form =>
          match files form !! lit "image" with
          | None => sendError cfg 400 (lit "No image file provided in 'image' field") None
          | Some imageBuffer =>
              match stage imageBuffer with
              | Thrown e => sendError cfg 500 (lit "Internal server error") (Some e)
              | Returned imageBufferForAI =>
                  processImage (fields form) imageBufferForAI
              end
          end
      end
  else sendError cfg 404 (lit "Not found") None.

End Handler.

End Legacy.

(** ** Sample inputs *)

Module Samples.

(** A content-type header with the boundary [B]. *)
Definition contentTypeB : option str :=
  Some (lit "multipart/form-data; boundary=B").

Definition attr (key : string) (value : str) : str :=
  lit key ++ lit "=" ++ [QUOTE] ++ value ++ [QUOTE].

(** One part of a body: delimiter line, disposition header, blank line,
    payload, line terminator. *)
Definition part (boundary disposition payload : str) : str :=
  lit "--" ++ boundary ++ CRLF
  ++ lit "Content-Disposition: form-data; " ++ disposition ++ CRLF
  ++ CRLF ++ payload ++ CRLF.

Definition closing (boundary : str) : str :=
  lit "--" ++ boundary ++ lit "--" ++ CRLF.

(** A plain PBM image of one pixel; like every such file it ends with a
    line feed. *)
Definition pbm : str := lit "P1" ++ [LF] ++ lit "1 1" ++ [LF] ++ lit "0" ++ [LF].

(** A well-formed upload of [pbm] in the field [image]. *)
Definition pbmUpload : list byte :=
  fromBinaryString
    (part (lit "B")
       (attr "name" (lit "image") ++ lit "; " ++ attr "filename" (lit "dot.pbm"))
       pbm
     ++ closing (lit "B")).

(** A part with a [filename] attribute and no [name] attribute. *)
Definition namelessUpload : list byte :=
  fromBinaryString
    (part (lit "B") (attr "filename" (lit "photo.jpg")) (lit "JFIF")
     ++ closing (lit "B")).


Definition scenarioText : str :=
  lit "* Mountain, **Sky**" ++ [LF] ++ lit "Night stars and clouds".

Definition defaults : Config :=
  {| PROVIDER := lit "ollama"; MODEL := None; DESCRIPTION_PROMPT := None;
     TAG_PROMPT := None; TASKS := [lit "description"; lit "tag"];
     VERBOSE := false |}.

(** A provider module that knows no provider. *)
Definition unsupported (args : GenArgs) : outcome GenResult :=
  Thrown (lit "Unsupported provider: " ++ Server.provider args).

(** The four description-bearing fields of the tests. *)
Definition descriptionFields : list str :=
  [lit "XPComment"; lit "Description"; lit "ImageDescription";
   lit "Caption-Abstract"].

Definition commented : gmap (list N) (list N) :=
  {[ lit "XPComment" := lit "Existing comment" ]}.

Definition testOptions : Library.Options :=
  {| Library.path := lit "image1.jpeg";
     Library.provider := lit "provider1";
     Library.model := Some (lit "model1");
     Library.descriptionTags := descriptionFields;
     Library.descriptionPrompt := lit "Describe image.";
     Library.tagPrompt := lit "Tag image.";
     Library.tasks := [Library.Description; Library.Tag];
     Library.avoidOverwrite := false;
     Library.dry := true |}.

Definition testStore : gmap (list N) Library.Image :=
  {[ lit "image1.jpeg" :=
       {| Library.content := fromBinaryString (lit "JFIF");
          Library.document := commented |} ]}.

(** The mocked provider of the tests: the prompt comes back as the answer. *)
Definition echo (t : Library.Task) (bytes : list byte) (model : option str)
    (prompt providerId : str) : outcome str :=
  Returned prompt.

End Samples.

Import Samples.

(** ** More sample inputs *)

Module Cases.

(** The defaults with verbose answers. *)
Definition verbose : Config :=
  {| PROVIDER := lit "ollama"; MODEL := None; DESCRIPTION_PROMPT := None;
     TAG_PROMPT := None; TASKS := [lit "description"; lit "tag"];
     VERBOSE := true |}.

(** A POST to /process whose content type has no boundary. *)
Definition bareRequest : Request :=
  {| method := lit "POST"; pathname := lit "/process";
     contentType := Some (lit "multipart/form-data"); chunks := [] |}.

(** The upload of the one-pixel image. *)
Definition pbmRequest : Request :=
  {| method := lit "POST"; pathname := lit "/process";
     contentType := contentTypeB; chunks := [pbmUpload] |}.

(** A form that asks for no known task. *)
Definition noTask : gmap (list N) (list N) := {[ lit "tasks" := lit "none" ]}.

(** A provider module that answers every call with the same text and 7
    tokens. *)
Definition fixed (answer : str) (args : GenArgs) : outcome GenResult :=
  Returned {| text := Some answer; usage := Some {| totalTokens := Some 7%float |} |}.

(** ASCII lower case, standing in for [toLowerCase]. *)
Definition asciiLower (s : str) : str :=
  List.map (fun c => if inRange 65 90 c then (c + 32)%N else c) s.

Definition anthropicConfig : Config :=
  {| PROVIDER := lit "Anthropic"; MODEL := None; DESCRIPTION_PROMPT := None;
     TAG_PROMPT := None; TASKS := [lit "description"; lit "tag"];
     VERBOSE := false |}.

Definition anthropicEnv : gmap (list N) (list N) :=
  {[ lit "ANTHROPIC_API_KEY" := lit "sk-ant-0123" ]}.

(** A network that is down. *)
Definition offline (request : Health.FetchRequest) : outcome Health.FetchResponse :=
  Thrown (lit "fetch failed").

(** A network on which every server answers 401. *)
Definition unauthorized (request : Health.FetchRequest)
    : outcome Health.FetchResponse :=
  Returned {| Health.ok := false; Health.status := 401;
              Health.statusText := lit "Unauthorized" |}.

Definition noModel (providerId : str) (model : option str) : outcome bool :=
  Thrown (lit "Unsupported provider").

(** A network on which every server answers with [ok]. *)
Definition online (request : Health.FetchRequest) : outcome Health.FetchResponse :=
  Returned {| Health.ok := true; Health.status := 200; Health.statusText := lit "OK" |}.

Definition healthRequest : Request :=
  {| method := lit "GET"; pathname := lit "/health"; contentType := None;
     chunks := [] |}.

End Cases.

Import Cases.

(** * Properties *)

(** ** Character classes *)

Ltac classes :=
  unfold isLeadChar, isTailChar, isDelim, isWord, isSpace, isDigit,
    notQuote, inRange, SP, QUOTE in *;
  rewrite <- ?not_true_iff_false in *;
  rewrite ?negb_true_iff in *;
  rewrite <- ?not_true_iff_false in *;
  rewrite ?orb_true_iff, ?andb_true_iff, ?N.leb_le, ?N.eqb_eq in *;
  lia.

Lemma tagUnit_space c : tagUnit c -> isSpace c = (SP =? c)%N.
Proof.
  intros [H | ->]; [| reflexivity].
  destruct (N.eqb_spec SP c) as [<- | Hne]; [discriminate H |].
  classes.
Qed.

Lemma tagUnit_not_tail c : tagUnit c -> isTailChar c = false.
Proof. intros [H | ->]; [classes | reflexivity]. Qed.

Lemma tagUnit_not_delim c : tagUnit c -> isDelim c = false.
Proof. intros [H | ->]; [classes | reflexivity]. Qed.

Lemma tagUnit_keep c : tagUnit c -> (if isWord c || isSpace c then c else SP) = c.
Proof. intros [H | ->]; [rewrite H |]; reflexivity. Qed.

Lemma tagUnit_lead c :
  tagUnit c -> isSpace c = false -> isDigit c = false -> isLeadChar c = false.
Proof. intros [H | ->] Hs Hd; [classes | discriminate Hs]. Qed.

(** ** Runs at the two ends of a text *)

Section Runs.

Variable p : N -> bool.

Lemma takeWhile_dropWhile s : takeWhile p s ++ dropWhile p s = s.
Proof.
  induction s as [| c s IH]; simpl; [reflexivity |].
  destruct (p c); simpl; [now rewrite IH | reflexivity].
Qed.

Lemma dropWhile_head_false s c :
  head s = Some c -> p c = false -> dropWhile p s = s.
Proof. destruct s; simpl; [discriminate |]. intros [= ->] ->. reflexivity. Qed.

Lemma dropWhile_head s c : head (dropWhile p s) = Some c -> p c = false.
Proof.
  induction s as [| d s IH]; simpl; [discriminate |].
  destruct (p d) eqn:E; [exact IH |]. simpl. intros [= <-]. exact E.
Qed.

Lemma dropWhile_Forall (Q : N -> Prop) s :
  Forall Q s -> Forall Q (dropWhile p s).
Proof.
  induction 1 as [| c s Hc Hs IH]; simpl; [constructor |].
  destruct (p c); [exact IH | now constructor].
Qed.

Lemma dropWhile_length s : length (dropWhile p s) <= length s.
Proof.
  induction s as [| c s IH]; simpl; [lia |]. destruct (p c); simpl; lia.
Qed.

(** What [dropWhileEnd] removes is a run at the end. *)
Lemma dropWhileEnd_split s :
  s = dropWhileEnd p s ++ rev (takeWhile p (rev s)).
Proof.
  unfold dropWhileEnd. rewrite <- rev_app_distr, takeWhile_dropWhile.
  now rewrite rev_involutive.
Qed.

Lemma dropWhileEnd_Forall (Q : N -> Prop) s :
  Forall Q s -> Forall Q (dropWhileEnd p s).
Proof.
  intros H. rewrite (dropWhileEnd_split s) in H.
  now apply Forall_app in H as [H _].
Qed.

Lemma dropWhileEnd_last_false s c :
  head (rev s) = Some c -> p c = false -> dropWhileEnd p s = s.
Proof.
  intros Hh Hc. unfold dropWhileEnd.
  rewrite (dropWhile_head_false _ _ Hh Hc). apply rev_involutive.
Qed.

Lemma dropWhileEnd_last s c :
  head (rev (dropWhileEnd p s)) = Some c -> p c = false.
Proof.
  unfold dropWhileEnd. rewrite rev_involutive. apply dropWhile_head.
Qed.

Lemma dropWhileEnd_head s c :
  head (dropWhileEnd p s) = Some c -> head s = Some c.
Proof.
  intros H. rewrite (dropWhileEnd_split s).
  destruct (dropWhileEnd p s); [discriminate | exact H].
Qed.

Lemma dropWhileEnd_length s : length (dropWhileEnd p s) <= length s.
Proof.
  unfold dropWhileEnd. rewrite length_rev.
  etransitivity; [apply dropWhile_length |]. now rewrite length_rev.
Qed.

End Runs.

Lemma trim_Forall (Q : N -> Prop) s : Forall Q s -> Forall Q (trim s).
Proof. intros H. now apply dropWhileEnd_Forall, dropWhile_Forall. Qed.

Lemma trim_head s c : head (trim s) = Some c -> isSpace c = false.
Proof.
  intros H. apply dropWhileEnd_head in H. now apply dropWhile_head in H.
Qed.

Lemma trim_last s c : head (rev (trim s)) = Some c -> isSpace c = false.
Proof. apply dropWhileEnd_last. Qed.

(** A text with no white space at either end is left alone by [trim]. *)
Lemma trim_fixed s :
  (forall c, head s = Some c -> isSpace c = false) ->
  (forall c, head (rev s) = Some c -> isSpace c = false) ->
  trim s = s.
Proof.
  intros Hh Hl. unfold trim.
  assert (dropWhile isSpace s = s) as ->.
  { destruct s as [| c s]; [reflexivity |].
    apply (dropWhile_head_false _ _ c); [reflexivity | now apply Hh]. }
  destruct (head (rev s)) as [c |] eqn:E.
  - apply (dropWhileEnd_last_false _ _ c); [exact E | apply Hl; reflexivity].
  - destruct (rev s) as [| c r] eqn:E'; [| discriminate E].
    apply (f_equal (@rev N)) in E'. rewrite rev_involutive in E'. now subst s.
Qed.

(** ** Splitting *)

Lemma stripPrefix_length p s r :
  stripPrefix p s = Some r -> length s = length p + length r.
Proof.
  revert s; induction p as [| a p IH]; intros [| b s]; simpl;
    try discriminate; try (intros [= <-]; reflexivity).
  destruct (N.eqb a b); [| discriminate]. intros H. now rewrite (IH _ H).
Qed.

Lemma breakOn_length sep s a b :
  breakOn sep s = Some (a, b) -> length s = length a + length sep + length b.
Proof.
  revert a b; induction s as [| c s IH]; intros a b.
  - unfold breakOn. destruct (stripPrefix sep []) eqn:E; [| discriminate].
    intros [= <- <-]. apply stripPrefix_length in E. simpl in *. lia.
  - simpl. destruct (stripPrefix sep (c :: s)) eqn:E.
    + intros [= <- <-]. apply stripPrefix_length in E. simpl in *. lia.
    + destruct (breakOn sep s) as [[a' b'] |] eqn:E'; [| discriminate].
      intros [= <- <-]. specialize (IH _ _ eq_refl). simpl. lia.
Qed.

(** Any fuel that covers the text gives the same pieces. *)
Lemma splitFuel_enough sep f f' s :
  sep <> [] -> length s <= f -> length s <= f' ->
  splitFuel f sep s = splitFuel f' sep s.
Proof.
  intros Hsep. revert f' s; induction f as [| f IH]; intros f' s Hf Hf'.
  - destruct s; [| simpl in Hf; lia].
    destruct f'; cbn [splitFuel]; [reflexivity |].
    destruct (breakOn sep []) as [[a b] |] eqn:E; [| reflexivity].
    apply breakOn_length in E. destruct sep; [congruence | simpl in E; lia].
  - cbn [splitFuel]. destruct (breakOn sep s) as [[a b] |] eqn:E.
    + pose proof (breakOn_length _ _ _ _ E) as Hl.
      assert (0 < length sep) by (destruct sep; [congruence | simpl; lia]).
      destruct f' as [| f']; [lia |]. cbn [splitFuel]. rewrite E. f_equal.
      apply IH; lia.
    + destruct f'; cbn [splitFuel]; [reflexivity | now rewrite E].
Qed.

Lemma splitChars_nonempty isSep s : splitChars isSep s <> [].
Proof.
  destruct s as [| c s]; simpl; [discriminate |].
  destruct (isSep c); [discriminate |]. now destruct (splitChars isSep s).
Qed.

Lemma breakOn_single c x s :
  breakOn [c] (x :: s) =
    if (c =? x)%N then Some ([], s)
    else match breakOn [c] s with
         | Some (a, b) => Some (x :: a, b)
         | None => None
         end.
Proof. simpl. destruct (c =? x)%N; reflexivity. Qed.

Lemma splitFuel_S sep f s :
  splitFuel (S f) sep s =
    match breakOn sep s with
    | Some (a, b) => a :: splitFuel f sep b
    | None => [s]
    end.
Proof. reflexivity. Qed.

Lemma splitFuel_some sep f s a b :
  sep <> [] -> length s <= f -> breakOn sep s = Some (a, b) ->
  splitFuel f sep s = a :: splitFuel f sep b.
Proof.
  intros Hsep Hf E. pose proof (breakOn_length _ _ _ _ E) as Hl.
  assert (0 < length sep) by (destruct sep; [congruence | simpl; lia]).
  destruct f as [| f]; [lia |]. rewrite (splitFuel_S sep f s), E. f_equal.
  apply splitFuel_enough; [assumption | lia | lia].
Qed.

Lemma splitFuel_none sep f s :
  breakOn sep s = None -> splitFuel f sep s = [s].
Proof. intros E. destruct f; cbn [splitFuel]; [reflexivity | now rewrite E]. Qed.

(** Splitting on a one-unit separator cuts at every such unit. *)
Lemma split_single c s : split [c] s = splitChars (N.eqb c) s.
Proof.
  unfold split.
  induction s as [| x s IH]; [reflexivity |].
  cbn [splitChars]. rewrite <- IH.
  destruct (c =? x)%N eqn:Ex.
  - rewrite (splitFuel_some [c] _ (x :: s) [] s); [| discriminate | lia |].
    + f_equal. apply splitFuel_enough; [discriminate | simpl; lia | simpl; lia].
    + rewrite breakOn_single. now rewrite Ex.
  - destruct (breakOn [c] s) as [[a b] |] eqn:E.
    + rewrite (splitFuel_some [c] _ (x :: s) (x :: a) b); [| discriminate | lia |].
      * rewrite (splitFuel_some [c] (length s) s a b); [| discriminate | lia | exact E].
        f_equal. apply breakOn_length in E.
        apply splitFuel_enough; [discriminate | simpl in *; lia | simpl in *; lia].
      * rewrite breakOn_single. now rewrite Ex, E.
    + rewrite (splitFuel_none _ _ s E). apply splitFuel_none.
      rewrite breakOn_single. now rewrite Ex, E.
Qed.

Lemma splitChars_ext (p q : N -> bool) s :
  Forall (fun c => p c = q c) s -> splitChars p s = splitChars q s.
Proof.
  induction 1 as [| c s Hc Hs IH]; simpl; [reflexivity |].
  now rewrite Hc, IH.
Qed.

(** Cutting the joined text of pieces that hold no separator gives the
    pieces back. *)
Lemma splitChars_clean isSep s :
  Forall (fun c => isSep c = false) s -> splitChars isSep s = [s].
Proof.
  induction 1 as [| c s Hc Hs IH]; simpl; [reflexivity |].
  now rewrite Hc, IH.
Qed.

Lemma splitChars_app isSep a d s :
  Forall (fun c => isSep c = false) a -> isSep d = true ->
  splitChars isSep (a ++ d :: s) = a :: splitChars isSep s.
Proof.
  intros Ha Hd. induction Ha as [| c a Hc Ha IH]; simpl.
  - now rewrite Hd.
  - now rewrite Hc, IH.
Qed.

Lemma splitChars_join isSep d l :
  isSep d = true -> l <> [] ->
  Forall (Forall (fun c => isSep c = false)) l ->
  splitChars isSep (join [d] l) = l.
Proof.
  intros Hd Hne Hl. induction Hl as [| a l Ha Hl IH]; [congruence |].
  destruct l as [| b l].
  - simpl. now apply splitChars_clean.
  - change (join [d] (a :: b :: l)) with (a ++ d :: join [d] (b :: l)).
    rewrite splitChars_app by assumption. f_equal. now apply IH.
Qed.

(** ** Clean tags *)

Lemma collapseFrom_spaced b s : spaced b (collapseFrom b s).
Proof.
  revert b; induction s as [| c s IH]; intros b; simpl; [exact I |].
  destruct (isSpace c) eqn:E.
  - destruct b; [apply IH |]. simpl. repeat split. apply IH.
  - simpl. rewrite E. apply IH.
Qed.

Lemma spaced_fixed b s : spaced b s -> collapseFrom b s = s.
Proof.
  revert b; induction s as [| c s IH]; intros b; simpl; [reflexivity |].
  destruct (isSpace c).
  - intros (-> & -> & H). now rewrite (IH _ H).
  - intros H. now rewrite (IH _ H).
Qed.

Lemma spaced_dropWhile b s : spaced b s -> spaced false (dropWhile isSpace s).
Proof.
  revert b; induction s as [| c s IH]; intros b; simpl; [trivial |].
  destruct (isSpace c) eqn:E.
  - intros (_ & _ & H). now apply IH in H.
  - simpl. now rewrite E.
Qed.

Lemma spaced_app_l b s t : spaced b (s ++ t) -> spaced b s.
Proof.
  revert b; induction s as [| c s IH]; intros b; simpl; [trivial |].
  destruct (isSpace c).
  - intros (H1 & H2 & H). repeat split; try assumption. now apply IH.
  - apply IH.
Qed.

Lemma spaced_trim b s : spaced b s -> spaced false (trim s).
Proof.
  intros H. apply spaced_dropWhile in H. unfold trim.
  rewrite (dropWhileEnd_split isSpace (dropWhile isSpace s)) in H.
  now apply spaced_app_l in H.
Qed.

Lemma collapseFrom_units b s :
  Forall (fun c => isWord c = true \/ isSpace c = true) s ->
  Forall tagUnit (collapseFrom b s).
Proof.
  intros H; revert b; induction H as [| c s Hc Hs IH]; intros b; simpl;
    [constructor |].
  destruct (isSpace c) eqn:E.
  - destruct b; [apply IH |]. constructor; [now right | apply IH].
  - constructor; [| apply IH]. destruct Hc as [Hc | Hc]; [now left | congruence].
Qed.

Lemma blankNonWord_units s :
  Forall (fun c => isWord c = true \/ isSpace c = true) (blankNonWord s).
Proof.
  unfold blankNonWord. apply Forall_map, Forall_forall. intros c _.
  destruct (isWord c) eqn:Ew; [now left |].
  destruct (isSpace c) eqn:Es; simpl; now right.
Qed.

Lemma cleanTag_Clean s : Clean (cleanTag s).
Proof.
  unfold cleanTag, collapseSpaces. split.
  - apply trim_Forall, collapseFrom_units, blankNonWord_units.
  - apply (spaced_trim false), collapseFrom_spaced.
  - apply trim_head.
  - apply trim_last.
Qed.

Lemma Clean_trim t : Clean t -> trim t = t.
Proof. intros [_ _ Hh Hl]. now apply trim_fixed. Qed.

Lemma head_Forall (Q : N -> Prop) s c : Forall Q s -> head s = Some c -> Q c.
Proof. destruct 1; simpl; [discriminate | now intros [= <-]]. Qed.

(** A clean tag that does not start with a digit is a fixed point of the
    clean-up. *)
Lemma Clean_fixed t :
  Clean t -> (forall c, head t = Some c -> isDigit c = false) -> cleanTag t = t.
Proof.
  intros [Hu Hs Hh Hl] Hd. unfold cleanTag, collapseSpaces.
  assert (stripLead t = t) as ->.
  { unfold stripLead. destruct t as [| c t]; [reflexivity |]. simpl.
    rewrite tagUnit_lead; [reflexivity | | |].
    - eapply head_Forall; [exact Hu | reflexivity].
    - now apply Hh.
    - now apply Hd. }
  assert (stripTail t = t) as ->.
  { unfold stripTail. destruct (head (rev t)) as [c |] eqn:E.
    - apply (dropWhileEnd_last_false _ _ c E), tagUnit_not_tail.
      eapply head_Forall; [apply Forall_rev; exact Hu | exact E].
    - destruct (rev t) as [| c r] eqn:E'; [| discriminate E].
      apply (f_equal (@rev N)) in E'. rewrite rev_involutive in E'. now subst t. }
  assert (blankNonWord t = t) as ->.
  { unfold blankNonWord. clear - Hu.
    induction Hu as [| c t Hc Ht IH]; simpl; [reflexivity |].
    now rewrite (tagUnit_keep _ Hc), IH. }
  rewrite (spaced_fixed _ _ Hs). now apply trim_fixed.
Qed.

Lemma In_firstn {A} n (l : list A) x : In x (firstn n l) -> In x l.
Proof.
  revert n; induction l as [| a l IH]; intros [| n]; simpl; try tauto.
  intros [-> | H]; [now left | right; eauto].
Qed.

(** Every entry of the list is a result of the clean-up that passed the
    filter. *)
Lemma normalizeTags_In tagsText t :
  In t (normalizeTags tagsText) -> Clean t /\ keepTag t = true.
Proof.
  unfold normalizeTags. intros H. apply In_firstn, filter_In in H as [H Hk].
  apply in_map_iff in H as (c & <- & _). split; [apply cleanTag_Clean | exact Hk].
Qed.

Lemma normalizeTags_length tagsText : length (normalizeTags tagsText) <= 20.
Proof. unfold normalizeTags. apply firstn_le_length. Qed.

Lemma keepTag_true t :
  keepTag t = true ->
  0 < length t /\ length t <= 50 /\ length (splitChars (N.eqb SP) t) <= 2.
Proof.
  unfold keepTag. rewrite split_single, !andb_true_iff.
  rewrite Nat.ltb_lt, !Nat.leb_le. tauto.
Qed.

Lemma words_bound t :
  Forall tagUnit t -> length (words t) <= length (splitChars (N.eqb SP) t).
Proof.
  intros Hu. unfold words. etransitivity; [apply filter_length_le |].
  rewrite (splitChars_ext isSpace (N.eqb SP)); [reflexivity |].
  eapply Forall_impl; [exact Hu | apply tagUnit_space].
Qed.

(** The entries are the clean-ups of some of the candidates, in their order. *)
Lemma pick_in_order {A B} (f : A -> B) (keep : B -> bool) n (l : list A) :
  exists kept, sublist kept l /\
    firstn n (List.filter keep (List.map f l)) = List.map f kept.
Proof.
  revert n; induction l as [| a l IH]; intros n.
  - exists []. split; [constructor | now destruct n].
  - simpl. destruct (keep (f a)).
    + destruct n as [| n].
      * exists []. split; [apply sublist_nil_l | reflexivity].
      * destruct (IH n) as (kept & Hs & He). exists (a :: kept).
        split; [now apply sublist_skip | simpl; now rewrite He].
    + destruct (IH n) as (kept & Hs & He). exists kept.
      split; [now apply sublist_cons | exact He].
Qed.

Lemma map_fixed {A} (f : A -> A) l :
  Forall (fun x => f x = x) l -> List.map f l = l.
Proof. induction 1 as [| x l Hx Hl IH]; simpl; [reflexivity | now rewrite Hx, IH]. Qed.

Lemma filter_fixed {A} (p : A -> bool) l :
  Forall (fun x => p x = true) l -> List.filter p l = l.
Proof. induction 1 as [| x l Hx Hl IH]; simpl; [reflexivity | now rewrite Hx, IH]. Qed.

(** ** The tag list *)

(** C3: for every raw tag text the normalized tag list has at most 20
    entries; every entry is non-empty, at most 50 code units long and has at
    most 2 white-space separated words; and the entries are the clean-ups of
    candidates of the raw text, in their order of appearance. *)
Theorem normalizeTags_shape (tagsText : str) :
  length (normalizeTags tagsText) <= 20 /\
  Forall (fun tag => tag <> [] /\ length tag <= 50 /\ length (words tag) <= 2)
    (normalizeTags tagsText) /\
  exists kept,
    sublist kept (splitChars isDelim tagsText) /\
    normalizeTags tagsText = List.map (fun c => cleanTag (trim c)) kept.
Proof.
  split; [apply normalizeTags_length |]. split.
  - apply Forall_forall. intros t Ht.
    apply list_elem_of_In, normalizeTags_In in Ht as [Hc Hk].
    apply keepTag_true in Hk as (Hpos & Hlen & Hw). repeat split.
    + intros ->. simpl in Hpos. lia.
    + exact Hlen.
    + etransitivity; [apply words_bound, (clean_units _ Hc) | exact Hw].
  - unfold normalizeTags, rawTags. rewrite List.map_map. apply pick_in_order.
Qed.

(** A list of clean tags with no leading digit survives a second pass. *)
Lemma normalizeTags_join (l : list str) :
  Forall (fun t => Clean t /\ keepTag t = true) l ->
  Forall (fun t => forall c, head t = Some c -> isDigit c = false) l ->
  length l <= 20 ->
  normalizeTags (join [44%N] l) = l.
Proof.
  intros Hc Hd Hlen.
  destruct l as [| t0 l0] eqn:El; [reflexivity |]. rewrite <- El in *.
  assert (Hne : l <> []) by (rewrite El; discriminate). clear El t0 l0.
  unfold normalizeTags, rawTags.
  rewrite splitChars_join; [| reflexivity | exact Hne |].
  - rewrite (map_fixed trim).
    + rewrite (map_fixed cleanTag).
      * rewrite filter_fixed; [now apply firstn_all2 |].
        eapply Forall_impl; [exact Hc | now intros t [_ Hk]].
      * apply Forall_forall. intros t Ht.
        apply Clean_fixed.
        -- eapply Forall_forall in Hc as [Hc _]; [exact Hc | exact Ht].
        -- eapply Forall_forall in Hd; [exact Hd | exact Ht].
    + eapply Forall_impl; [exact Hc |]. intros t [Ht _]. now apply Clean_trim.
  - eapply Forall_impl; [exact Hc |]. intros t [Ht _].
    eapply Forall_impl; [exact (clean_units _ Ht) | apply tagUnit_not_delim].
Qed.

(** C4, as amended: for every raw tag text whose normalized tags do not
    start with a digit, normalizing the comma-joined normalized tags gives
    the same tag list again. *)
Theorem normalizeTags_rejoin (tagsText : str) :
  Forall (fun tag => forall c, head tag = Some c -> isDigit c = false)
    (normalizeTags tagsText) ->
  normalizeTags (join (lit ",") (normalizeTags tagsText)) = normalizeTags tagsText.
Proof.
  intros Hd. apply normalizeTags_join.
  - apply Forall_forall. intros t Ht.
    now apply list_elem_of_In, normalizeTags_In in Ht.
  - exact Hd.
  - apply normalizeTags_length.
Qed.

Lemma normalizeTags_rejoin_witness :
  Forall (fun tag => forall c, head tag = Some c -> isDigit c = false)
    (normalizeTags scenarioText) /\
  normalizeTags (join (lit ",") (normalizeTags scenarioText))
    = normalizeTags scenarioText.
Proof.
  assert (H : Forall (fun tag => forall c, head tag = Some c -> isDigit c = false)
                (normalizeTags scenarioText)).
  { vm_compute normalizeTags. repeat constructor; intros c [= <-]; reflexivity. }
  split; [exact H | exact (normalizeTags_rejoin scenarioText H)].
Defined.

(** C4, as stated, fails: the text [#1] normalizes to the single tag [1],
    and the joined output [1] normalizes to no tag at all. *)
Lemma normalizeTags_not_idempotent :
  normalizeTags (lit "#1") = [lit "1"] /\
  normalizeTags (join (lit ",") (normalizeTags (lit "#1")))
    <> normalizeTags (lit "#1").
Proof. split; [reflexivity | vm_compute; discriminate]. Qed.

(** C5, as amended: the scenario text normalizes to the two tags Mountain
    and Sky; the four-word candidate is discarded by the two-word filter. *)
Theorem scenario_tags :
  normalizeTags scenarioText = [lit "Mountain"; lit "Sky"].
Proof. vm_compute. reflexivity. Qed.

(** C5, as stated, fails: the result is not the three-tag list. *)
Lemma scenario_not_three_tags :
  normalizeTags scenarioText <> [lit "Mountain"; lit "Sky"; lit "Night stars"].
Proof. vm_compute. discriminate. Qed.

(** ** Token counts *)

(** Adding a number that is neither zero nor NaN to the initial 0 gives
    the number itself. *)
Lemma add_zero_l (x : float) :
  PrimFloat.is_zero x = false -> (0 + x)%float = x.
Proof.
  intros Hz. apply Prim2SF_inj. rewrite add_spec.
  unfold PrimFloat.is_zero in Hz. rewrite FloatAxioms.eqb_spec in Hz.
  change (Prim2SF PrimFloat.zero) with (SpecFloat.S754_zero false) in Hz.
  change (Prim2SF 0) with (SpecFloat.S754_zero false).
  destruct (Prim2SF x) as [[|] | [|] | | sg m e]; try reflexivity;
    discriminate Hz.
Qed.

Lemma add_zero_r (x : float) :
  PrimFloat.is_zero x = false -> (x + 0)%float = x.
Proof.
  intros Hz. apply Prim2SF_inj. rewrite add_spec.
  unfold PrimFloat.is_zero in Hz. rewrite FloatAxioms.eqb_spec in Hz.
  change (Prim2SF PrimFloat.zero) with (SpecFloat.S754_zero false) in Hz.
  change (Prim2SF 0) with (SpecFloat.S754_zero false).
  destruct (Prim2SF x) as [[|] | [|] | | sg m e]; try reflexivity;
    discriminate Hz.
Qed.

(** What the handler counts for an answer is what the answer reports. *)
Lemma tokensOf_reported (r : GenResult) :
  tokensOf r = reportedTokens true (Returned r).
Proof.
  destruct r as [tx [[[n |]] |]]; try reflexivity.
  unfold tokensOf, reportedTokens, falsyNumber. cbn [usage totalTokens].
  destruct (PrimFloat.is_zero n), (PrimFloat.is_nan n); reflexivity.
Qed.

Lemma reportedTokens_zero_l requested o :
  (0 + reportedTokens requested o)%float = reportedTokens requested o.
Proof.
  destruct requested; [| reflexivity].
  destruct o as [[tx [[[n |]] |]] | e]; try reflexivity.
  unfold reportedTokens.
  destruct (PrimFloat.is_nan n); [reflexivity |].
  destruct (PrimFloat.is_zero n) eqn:Ez; [reflexivity | now apply add_zero_l].
Qed.

Lemma reportedTokens_zero_r requested o :
  (reportedTokens requested o + 0)%float = reportedTokens requested o.
Proof.
  destruct requested; [| reflexivity].
  destruct o as [[tx [[[n |]] |]] | e]; try reflexivity.
  unfold reportedTokens.
  destruct (PrimFloat.is_nan n); [reflexivity |].
  destruct (PrimFloat.is_zero n) eqn:Ez; [reflexivity | now apply add_zero_r].
Qed.

(** ** The processing block *)

Section Processing.

Variable cfg : Config.
Variables getDescriptionWithUsage getTagsWithUsage : GenArgs -> outcome GenResult.
Variable fields : gmap (list N) (list N).
Variable image : list byte.

Let dArgs := descriptionArgs cfg fields image.
Let tArgs := tagArgs cfg fields image.
Let run := runTasks cfg getDescriptionWithUsage getTagsWithUsage fields image.

Lemma describeStep_tags args st :
  Vars.tags (describeStep getDescriptionWithUsage args st) = Vars.tags st.
Proof. unfold describeStep. now destruct (getDescriptionWithUsage args). Qed.

Lemma tagStep_description args st :
  Vars.description (tagStep getTagsWithUsage args st) = Vars.description st.
Proof. unfold tagStep. now destruct (getTagsWithUsage args). Qed.

(** The description of the answer depends on the description call alone. *)
Lemma run_description :
  wantsDescription cfg fields = true ->
  Vars.description run = descriptionOf (getDescriptionWithUsage dArgs).
Proof.
  intros Hd. subst run dArgs. unfold runTasks. rewrite Hd.
  destruct (wantsTags cfg fields); rewrite ?tagStep_description;
    unfold describeStep, descriptionOf;
    now destruct (getDescriptionWithUsage _).
Qed.

(** The tags of the answer depend on the tag call alone. *)
Lemma run_tags :
  wantsTags cfg fields = true ->
  Vars.tags run = tagsOf (getTagsWithUsage tArgs).
Proof.
  intros Ht. subst run tArgs. unfold runTasks. rewrite Ht.
  unfold tagStep, tagsOf.
  destruct (getTagsWithUsage _) as [r | e]; cbn.
  - destruct (text r); [reflexivity |].
    destruct (wantsDescription cfg fields); [apply describeStep_tags | reflexivity].
  - destruct (wantsDescription cfg fields); [apply describeStep_tags | reflexivity].
Qed.

(** The three counters after the two blocks. *)
Lemma run_tokens :
  let d := reportedTokens (wantsDescription cfg fields) (getDescriptionWithUsage dArgs) in
  let t := reportedTokens (wantsTags cfg fields) (getTagsWithUsage tArgs) in
  Vars.descriptionTokens run = d /\ Vars.tagsTokens run = t /\
  Vars.totalTokensUsed run = (d + t)%float.
Proof.
  subst run dArgs tArgs. unfold runTasks, describeStep, tagStep.
  destruct (wantsDescription cfg fields), (wantsTags cfg fields);
    repeat match goal with
           | |- context [match ?g ?a with Returned _ => _ | Thrown _ => _ end] =>
               let r := fresh "r" in
               destruct (g a) as [r | ?];
               [pose proof (tokensOf_reported r) |]
           end;
    cbn [Vars.descriptionTokens Vars.tagsTokens Vars.totalTokensUsed Vars.init];
    repeat match goal with H : tokensOf _ = _ |- _ => rewrite H; clear H end;
    rewrite ?reportedTokens_zero_l;
    repeat split;
    try reflexivity;
    try (symmetry; apply (reportedTokens_zero_r true));
    try (symmetry; apply (reportedTokens_zero_l true)).
Qed.

End Processing.

(** An accepted request is answered by the processing block. *)
Lemma handleRequest_accepted (cfg : Config)
    (getDescriptionWithUsage getTagsWithUsage : GenArgs -> outcome GenResult)
    (stage : list byte -> outcome (list byte))
    (checkProviderHealth : outcome (str * option str))
    (req : Request) (fields : gmap (list N) (list N)) (image : list byte) :
  accepted stage req fields image ->
  handleRequest cfg getDescriptionWithUsage getTagsWithUsage stage
      checkProviderHealth req
    = processImage cfg getDescriptionWithUsage getTagsWithUsage fields image.
Proof.
  intros (Hm & Hp & Hct & form & buf & Hparse & <- & Himg & Hstage).
  unfold handleRequest. rewrite Hm, Hp, Hct, Hparse, Himg, Hstage.
  reflexivity.
Qed.

(** C6: when a request asks for both tasks, the answer is always status 200
    with [success = true]; its description is what the description call
    alone yields and its tags are what the tag call alone yields, so a
    failure of one call empties its own field and leaves the other one as
    it would be anyway; when the provider module fails every call made with
    the request's provider, as for an unknown provider id, the description
    is the empty text and the tag list is empty. *)
Theorem task_failures_isolated (cfg : Config)
    (getDescriptionWithUsage getTagsWithUsage : GenArgs -> outcome GenResult)
    (fields : gmap (list N) (list N)) (image : list byte) :
  wantsDescription cfg fields = true ->
  wantsTags cfg fields = true ->
  exists r,
    processImage cfg getDescriptionWithUsage getTagsWithUsage fields image
      = {| statusCode := 200; body := ProcessBody r |} /\
    Reply.success r = true /\
    Reply.description r
      = descriptionOf (getDescriptionWithUsage (descriptionArgs cfg fields image)) /\
    Reply.tags r = tagsOf (getTagsWithUsage (tagArgs cfg fields image)) /\
    (failed (getDescriptionWithUsage (descriptionArgs cfg fields image)) ->
       Reply.description r = []) /\
    (failed (getTagsWithUsage (tagArgs cfg fields image)) -> Reply.tags r = []) /\
    ((forall args, Server.provider args = requestProvider cfg fields ->
        failed (getDescriptionWithUsage args) /\ failed (getTagsWithUsage args)) ->
       Reply.description r = [] /\ Reply.tags r = [] /\ Reply.tokenUsage r = None).
Proof.
  intros Hd Ht. eexists. split; [reflexivity |]. cbn.
  pose proof (run_description cfg getDescriptionWithUsage getTagsWithUsage
                fields image Hd) as Ed.
  pose proof (run_tags cfg getDescriptionWithUsage getTagsWithUsage
                fields image Ht) as Et.
  pose proof (run_tokens cfg getDescriptionWithUsage getTagsWithUsage
                fields image) as (_ & _ & En).
  cbv zeta in En. rewrite Ed, Et, En, Hd, Ht.
  split; [reflexivity |]. split; [reflexivity |]. split; [reflexivity |].
  split; [| split].
  - intros [e ->]. reflexivity.
  - intros [e ->]. reflexivity.
  - intros Hall.
    destruct (Hall (descriptionArgs cfg fields image) eq_refl) as [[e1 ->] _].
    destruct (Hall (tagArgs cfg fields image) eq_refl) as [_ [e2 ->]].
    repeat split.
Qed.

Lemma task_failures_isolated_witness :
  exists r,
    handleRequest defaults unsupported unsupported Returned (Thrown [])
      {| method := lit "POST"; pathname := lit "/process";
         contentType := contentTypeB; chunks := [pbmUpload] |}
      = {| statusCode := 200; body := ProcessBody r |} /\
    Reply.success r = true /\ Reply.description r = [] /\ Reply.tags r = [].
Proof.
  assert (Hd : wantsDescription defaults ∅ = true) by (vm_compute; reflexivity).
  assert (Ht : wantsTags defaults ∅ = true) by (vm_compute; reflexivity).
  destruct (task_failures_isolated defaults unsupported unsupported ∅
              (fromBinaryString (trim pbm)) Hd Ht)
    as (r & E & Hs & _ & _ & _ & _ & Hu).
  exists r. split; [| split; [exact Hs |]].
  - rewrite <- E. vm_compute. reflexivity.
  - destruct Hu as (Ed & Et & _); [| now split].
    intros args _. split; eexists; reflexivity.
Defined.

(** C10: the answer of the processing block carries a [tokenUsage] object
    exactly when the total token count is strictly positive.  The count of
    a task is the [usage.totalTokens] reported by its provider call, and 0
    when the provider reported no usage (also when the task was not
    requested or its call failed); the total is the sum of the two counts,
    in the arithmetic of the program's numbers, and the object holds the
    two counts and, as [total], this sum. *)
Theorem tokenUsage_reported (cfg : Config)
    (getDescriptionWithUsage getTagsWithUsage : GenArgs -> outcome GenResult)
    (fields : gmap (list N) (list N)) (image : list byte) :
  let d := reportedTokens (wantsDescription cfg fields)
             (getDescriptionWithUsage (descriptionArgs cfg fields image)) in
  let t := reportedTokens (wantsTags cfg fields)
             (getTagsWithUsage (tagArgs cfg fields image)) in
  exists r,
    processImage cfg getDescriptionWithUsage getTagsWithUsage fields image
      = {| statusCode := 200; body := ProcessBody r |} /\
    (is_Some (Reply.tokenUsage r) <-> (0 <? d + t)%float = true) /\
    Reply.tokenUsage r
      = if (0 <? d + t)%float
        then Some {| usageDescription := d; usageTags := t;
                     usageTotal := (d + t)%float |}
        else None.
Proof.
  intros d t. eexists. split; [reflexivity |].
  cbn [Reply.tokenUsage].
  destruct (run_tokens cfg getDescriptionWithUsage getTagsWithUsage fields image)
    as (Ed & Et & En).
  cbv zeta in Ed, Et, En. fold d in Ed, En. fold t in Et, En.
  rewrite Ed, Et, En.
  destruct (0 <? d + t)%float; split; try reflexivity.
  - split; [reflexivity | intros _; eexists; reflexivity].
  - split; [intros [u Hu]; discriminate Hu | discriminate].
Qed.

(** The count of a task is the number its provider reports: when the call
    of a requested task returns an answer whose [usage.totalTokens] is a
    number other than zero and NaN, that number is the count. *)
Lemma reportedTokens_usage (r : GenResult) (u : Usage) (n : float) :
  usage r = Some u -> totalTokens u = Some n ->
  PrimFloat.is_nan n = false -> PrimFloat.is_zero n = false ->
  reportedTokens true (Returned r) = n.
Proof.
  destruct r as [tx us]. destruct u as [tt]. cbn. intros -> -> Hn Hz.
  cbn. now rewrite Hn, Hz.
Qed.

(** The total is the rounded sum of the program: 2^53 and 1 add up to
    2^53, and the answer reports that total. *)
Example tokenUsage_rounds :
  let big (args : GenArgs) : outcome GenResult :=
    Returned {| text := Some []; usage := Some {| totalTokens := Some 9007199254740992%float |} |} in
  let one (args : GenArgs) : outcome GenResult :=
    Returned {| text := Some []; usage := Some {| totalTokens := Some 1%float |} |} in
  exists r,
    processImage defaults big one ∅ []
      = {| statusCode := 200; body := ProcessBody r |} /\
    Reply.tokenUsage r
      = Some {| usageDescription := 9007199254740992%float;
                usageTags := 1%float;
                usageTotal := 9007199254740992%float |}.
Proof. eexists. split; [reflexivity |]. vm_compute. reflexivity. Qed.

(** ** Multipart decoding *)

Lemma splitFuel_nonempty f sep s : splitFuel f sep s <> [].
Proof.
  destruct f; cbn [splitFuel]; [discriminate |].
  destruct (breakOn sep s) as [[a b] |]; discriminate.
Qed.

(** The second piece of a split exists exactly when the separator occurs. *)
Lemma split_second sep s :
  sep <> [] -> nth_error (split sep s) 1 = None <-> includes sep s = false.
Proof.
  intros Hsep. destruct sep as [| c sep]; [congruence |].
  unfold split, includes. destruct s as [| x s].
  - cbn. tauto.
  - cbn [length]. rewrite splitFuel_S.
    destruct (breakOn (c :: sep) (x :: s)) as [[a b] |].
    + cbn [nth_error].
      pose proof (splitFuel_nonempty (length s) (c :: sep) b) as Hne.
      destruct (splitFuel (length s) (c :: sep) b); [congruence |].
      cbn. split; discriminate.
    + cbn. tauto.
Qed.



(** X22: reading a buffer as a binary (latin1) string and building a buffer
    from that string gives the buffer back: the two conversions of the
    decoder lose no byte. *)
Lemma binary_roundtrip (b : list byte) :
  fromBinaryString (toBinaryString b) = b.
Proof.
  unfold fromBinaryString, toBinaryString. rewrite List.map_map.
  apply map_fixed, Forall_forall. intros x _. unfold lowByte.
  rewrite N.mod_small, Byte.of_to_N; [reflexivity |].
  pose proof (Byte.to_N_bounded x). lia.
Qed.





(** After [trim] there is no final CRLF left to remove. *)
Lemma dropFinalCRLF_trim s : dropFinalCRLF (trim s) = trim s.
Proof.
  unfold dropFinalCRLF. destruct (rev (trim s)) as [| c r] eqn:E; [reflexivity |].
  assert (Hc : isSpace c = false) by (apply (trim_last s); now rewrite E).
  change (stripPrefix (rev CRLF) (c :: r))
    with (if (LF =? c)%N then stripPrefix [CR] r else None).
  destruct (N.eqb_spec LF c) as [<- |]; [discriminate Hc | reflexivity].
Qed.






(** C1 at a well-formed upload of a one-pixel PBM file: the decoded file
    lacks the final line feed of the payload. *)
Theorem upload_loses_final_line_feed :
  exists form,
    parseMultipartData contentTypeB [pbmUpload] = Returned form /\
    files form !! lit "image"
      = Some (fromBinaryString (lit "P1" ++ [LF] ++ lit "1 1" ++ [LF] ++ lit "0")) /\
    files form !! lit "image" <> Some (fromBinaryString pbm).
Proof.
  eexists. split; [reflexivity |]. split; [vm_compute; reflexivity |].
  vm_compute. discriminate.
Qed.

(** C8 at a part that has a [filename] attribute and no [name] attribute:
    the part is not skipped, its payload is stored under the file name. *)
Theorem nameless_part_is_kept :
  exists form,
    parseMultipartData contentTypeB [namelessUpload] = Returned form /\
    matchAttr nameKey (lit "Content-Disposition: form-data; " ++ attr "filename" (lit "photo.jpg"))
      = Some (lit "photo.jpg") /\
    files form !! lit "photo.jpg" = Some (fromBinaryString (lit "JFIF")).
Proof.
  eexists. split; [reflexivity |]. split; vm_compute; reflexivity.
Qed.

(** ** The merge policy *)

Section Merge.

Import Library.

Variable g : str.

Lemma mergeField_keeps (doc : gmap (list N) (list N)) (field f v : str) :
  doc !! f = Some v -> v <> [] -> mergeField true g doc field !! f = Some v.
Proof.
  intros Hf Hv. unfold mergeField. cbn [andb].
  destruct (truthy (doc !! field)) eqn:E; [exact Hf |].
  rewrite lookup_insert_ne; [exact Hf |].
  intros ->. rewrite Hf in E. destruct v; [congruence | discriminate E].
Qed.

Lemma fold_mergeField_keeps (targets : list str)
    (doc : gmap (list N) (list N)) (f v : str) :
  doc !! f = Some v -> v <> [] ->
  fold_left (mergeField true g) targets doc !! f = Some v.
Proof.
  revert doc; induction targets as [| t targets IH]; intros doc Hf Hv;
    cbn [fold_left]; [exact Hf |].
  apply IH; [now apply mergeField_keeps | exact Hv].
Qed.

Lemma fold_mergeField_overwrites (targets : list str)
    (doc : gmap (list N) (list N)) (f : str) :
  In f targets \/ doc !! f = Some g ->
  fold_left (mergeField false g) targets doc !! f = Some g.
Proof.
  revert doc; induction targets as [| t targets IH]; intros doc H;
    cbn [fold_left].
  - destruct H as [[] | H]; exact H.
  - apply IH. unfold mergeField. cbn [andb].
    destruct (decide (t = f)) as [-> | Hne].
    + right. apply lookup_insert_eq.
    + destruct H as [[H | H] | H]; [congruence | now left |].
      right. now rewrite lookup_insert_ne.
Qed.

End Merge.

(** C2: merging with [avoidOverwrite = true] leaves every field that
    started with a non-empty value unchanged, whatever was generated;
    merging with [avoidOverwrite = false] sets every targeted field to the
    generated text whenever there is one, whatever the field held before. *)
Theorem merge_respects_avoidOverwrite (targets : list str)
    (doc : gmap (list N) (list N)) (generated : option str) :
  (forall f v, doc !! f = Some v -> v <> [] ->
     Library.merge targets doc generated true !! f = Some v) /\
  (forall g f, generated = Some g -> In f targets ->
     Library.merge targets doc generated false !! f = Some g).
Proof.
  split.
  - intros f v Hf Hv. unfold Library.merge. destruct generated as [g |];
      [now apply fold_mergeField_keeps | exact Hf].
  - intros g f -> Hin. unfold Library.merge.
    apply fold_mergeField_overwrites. now left.
Qed.

Lemma merge_respects_avoidOverwrite_witness :
  Library.merge descriptionFields commented (Some (lit "Describe image.")) true
    !! lit "XPComment" = Some (lit "Existing comment") /\
  Library.merge descriptionFields commented (Some (lit "Describe image.")) false
    !! lit "XPComment" = Some (lit "Describe image.").
Proof.
  destruct (merge_respects_avoidOverwrite descriptionFields commented
              (Some (lit "Describe image."))) as [Hkeep Hset].
  split.
  - apply Hkeep; [vm_compute; reflexivity | vm_compute; discriminate].
  - apply Hset; [reflexivity | vm_compute; tauto].
Defined.

(** The scenario of the tests: with [avoidOverwrite] the existing comment
    stays and the three fields without a value receive the generated text. *)
Example merge_test_scenario :
  let doc := Library.merge descriptionFields commented
               (Some (lit "Describe image.")) true in
  doc !! lit "XPComment" = Some (lit "Existing comment") /\
  doc !! lit "Description" = Some (lit "Describe image.") /\
  doc !! lit "ImageDescription" = Some (lit "Describe image.") /\
  doc !! lit "Caption-Abstract" = Some (lit "Describe image.").
Proof. vm_compute. repeat split. Qed.

(** C9: in dry mode [execute] leaves the store of image files as it was, so
    every metadata field of every document is unchanged, whatever the
    overwrite setting; and what it returns is what the same call would
    return without the dry flag. *)
Theorem dry_run_leaves_store
    (generate : Library.Task -> list byte -> option str -> str -> str -> outcome str)
    (tagSlot tagDelimiter : str) (o : Library.Options)
    (store : gmap (list N) Library.Image) :
  Library.dry o = true ->
  snd (Library.execute generate tagSlot tagDelimiter o store) = store /\
  (forall p field,
     (snd (Library.execute generate tagSlot tagDelimiter o store) !! p)
       ≫= (fun img => Library.document img !! field)
     = (store !! p) ≫= (fun img => Library.document img !! field)) /\
  fst (Library.execute generate tagSlot tagDelimiter o store)
    = fst (Library.execute generate tagSlot tagDelimiter (Library.setDry false o) store).
Proof.
  intros Hdry.
  assert (E : snd (Library.execute generate tagSlot tagDelimiter o store) = store).
  { unfold Library.execute. destruct (store !! Library.path o); [| reflexivity].
    cbn [snd]. now rewrite Hdry. }
  split; [exact E |]. split; [intros p field; now rewrite E |].
  unfold Library.execute, Library.setDry. cbn [Library.path].
  destruct (store !! Library.path o); reflexivity.
Qed.

Lemma dry_run_leaves_store_witness :
  Library.dry testOptions = true /\
  snd (Library.execute echo (lit "Subject") (lit ", ") testOptions testStore)
    = testStore.
Proof.
  split; [reflexivity |].
  apply (dry_run_leaves_store echo (lit "Subject") (lit ", ") testOptions testStore).
  reflexivity.
Defined.

(** * Further properties of the code *)

(** ** More on the tag list *)

Lemma splitChars_cut isSep a d b :
  isSep d = true ->
  splitChars isSep (a ++ d :: b) = splitChars isSep a ++ splitChars isSep b.
Proof.
  intros Hd. induction a as [| c a IH]; simpl.
  - now rewrite Hd.
  - rewrite IH. destruct (isSep c); [reflexivity |].
    pose proof (splitChars_nonempty isSep a) as Hne.
    now destruct (splitChars isSep a).
Qed.

(** The candidates that pass the filter, before the cut at 20. *)
Lemma normalizeTags_cut a d b :
  isDelim d = true ->
  normalizeTags (a ++ d :: b)
    = firstn 20 (List.filter keepTag (List.map cleanTag (rawTags a))
                 ++ List.filter keepTag (List.map cleanTag (rawTags b))).
Proof.
  intros Hd. unfold normalizeTags, rawTags.
  now rewrite (splitChars_cut _ _ _ _ Hd), !List.map_app, List.filter_app.
Qed.

(** X1: the tags found in a text stay, in place, when the text goes on
    after a delimiter: the tag list of the shorter text is a prefix of the
    tag list of the longer one, and once 20 tags are found the rest of the
    text changes nothing. *)
Theorem normalizeTags_prefix (a b : str) (d : N) :
  isDelim d = true ->
  normalizeTags a `prefix_of` normalizeTags (a ++ d :: b) /\
  (20 <= length (normalizeTags a) ->
   normalizeTags (a ++ d :: b) = normalizeTags a).
Proof.
  intros Hd. rewrite (normalizeTags_cut _ _ _ Hd). unfold normalizeTags.
  rewrite firstn_app. split.
  - eexists. reflexivity.
  - intros Hlen. rewrite length_firstn in Hlen.
    replace (20 - _) with 0 by lia. cbn [firstn]. apply app_nil_r.
Qed.

Lemma normalizeTags_prefix_witness :
  normalizeTags (lit "sky") `prefix_of` normalizeTags (lit "sky" ++ 59%N :: lit "night").
Proof.
  apply (normalizeTags_prefix (lit "sky") (lit "night") 59%N). reflexivity.
Defined.

(** X2: every tag of the list is made of ASCII letters, digits, the
    underscore and single plain spaces only; it holds no delimiter, and no
    white space at either end. *)
Theorem normalizeTags_alphabet (tagsText : str) :
  Forall (fun tag =>
            Forall (fun c => isWord c = true \/ c = SP) tag /\
            Forall (fun c => isDelim c = false) tag /\
            spaced false tag /\
            trim tag = tag)
    (normalizeTags tagsText).
Proof.
  apply Forall_forall. intros t Ht.
  apply list_elem_of_In, normalizeTags_In in Ht as [Hc _].
  split; [exact (clean_units _ Hc) |]. split; [| split].
  - eapply Forall_impl; [exact (clean_units _ Hc) | apply tagUnit_not_delim].
  - exact (clean_spaced _ Hc).
  - now apply Clean_trim.
Qed.

(** X3: a list of at most 20 tags, each left alone by the clean-up and kept
    by the filter, is read back from its comma-joined text as it is: in
    order, with its duplicates and its letter case. *)
Theorem tag_list_roundtrip (l : list str) :
  Forall (fun t => cleanTag t = t /\ keepTag t = true) l ->
  length l <= 20 ->
  normalizeTags (join (lit ",") l) = l.
Proof.
  intros Hl Hlen.
  destruct l as [| t0 l0] eqn:El; [reflexivity |]. rewrite <- El in *.
  assert (Hne : l <> []) by (rewrite El; discriminate). clear El t0 l0.
  assert (Hc : Forall Clean l).
  { eapply Forall_impl; [exact Hl |]. intros t [Ht _]. rewrite <- Ht.
    apply cleanTag_Clean. }
  unfold normalizeTags, rawTags. change (lit ",") with [44%N].
  rewrite splitChars_join; [| reflexivity | exact Hne |].
  - rewrite (map_fixed trim).
    + rewrite (map_fixed cleanTag).
      * rewrite filter_fixed; [now apply firstn_all2 |].
        eapply Forall_impl; [exact Hl | now intros t [_ Hk]].
      * eapply Forall_impl; [exact Hl | now intros t [Ht _]].
    + eapply Forall_impl; [exact Hc | apply Clean_trim].
  - eapply Forall_impl; [exact Hc |]. intros t Ht.
    eapply Forall_impl; [exact (clean_units _ Ht) | apply tagUnit_not_delim].
Qed.

Lemma tag_list_roundtrip_witness :
  normalizeTags (join (lit ",") [lit "Sky"; lit "night sky"; lit "Sky"])
    = [lit "Sky"; lit "night sky"; lit "Sky"].
Proof.
  apply tag_list_roundtrip; [| simpl; lia].
  repeat constructor; vm_compute; reflexivity.
Defined.

Lemma splitChars_pieces isSep (Q : N -> Prop) s :
  Forall (fun c => isSep c = true \/ Q c) s ->
  Forall (Forall Q) (splitChars isSep s).
Proof.
  induction 1 as [| c s Hc Hs IH]; simpl; [repeat constructor |].
  destruct (isSep c) eqn:E; [constructor; [constructor | exact IH] |].
  destruct Hc as [Hc | Hc]; [congruence |].
  destruct (splitChars isSep s) as [| p ps]; [repeat constructor; exact Hc |].
  inversion IH; subst. constructor; [now constructor | assumption].
Qed.

Lemma trim_blank s : Forall (fun c => isSpace c = true) s -> trim s = [].
Proof.
  intros H. unfold trim.
  assert (dropWhile isSpace s = []) as ->; [| reflexivity].
  induction H as [| c s Hc Hs IH]; simpl; [reflexivity | now rewrite Hc].
Qed.

(** X4: a text made of delimiters and white space only gives no tag at
    all; so does the empty text. *)
Theorem normalizeTags_blank (tagsText : str) :
  Forall (fun c => isDelim c = true \/ isSpace c = true) tagsText ->
  normalizeTags tagsText = [].
Proof.
  intros H. apply (splitChars_pieces isDelim) in H.
  unfold normalizeTags, rawTags.
  induction H as [| p ps Hp Hps IH]; [reflexivity |].
  cbn [List.map]. rewrite (trim_blank _ Hp).
  change (List.filter keepTag (cleanTag [] :: ?l)) with (List.filter keepTag l).
  exact IH.
Qed.

Lemma normalizeTags_blank_witness :
  normalizeTags (lit " , ;" ++ [LF] ++ lit "| ") = [].
Proof.
  apply normalizeTags_blank.
  repeat constructor; (left; reflexivity) || (right; reflexivity).
Defined.

(** ** More on multipart decoding *)

Lemma takeWhile_Forall p s : Forall (fun c => p c = true) (takeWhile p s).
Proof.
  induction s as [| c s IH]; simpl; [constructor |].
  destruct (p c) eqn:E; [now constructor | constructor].
Qed.

(** A name fit to be a key of the form: not empty, no quote in it. *)
Definition properName (k : str) : Prop :=
  k <> [] /\ Forall (fun c => c <> QUOTE) k.

Lemma quoted_proper s v : quoted s = Some v -> properName v.
Proof.
  unfold quoted. pose proof (takeWhile_Forall notQuote s) as H.
  destruct (takeWhile notQuote s) as [| c w]; [discriminate |].
  destruct (dropWhile notQuote s); [discriminate |]. intros [= <-].
  split; [discriminate |].
  eapply Forall_impl; [exact H |]. intros x Hx.
  unfold notQuote in Hx. apply negb_true_iff, N.eqb_neq in Hx. exact Hx.
Qed.

Lemma matchAttr_proper key s v : matchAttr key s = Some v -> properName v.
Proof.
  induction s as [| c s IH]; simpl.
  - destruct (stripPrefix key []) as [rest |]; [| discriminate].
    destruct (quoted rest) eqn:E; [| discriminate].
    intros [= <-]. now apply quoted_proper in E.
  - destruct (stripPrefix key (c :: s)) as [rest |]; [| exact IH].
    destruct (quoted rest) eqn:E; [| exact IH].
    intros [= <-]. now apply quoted_proper in E.
Qed.

Lemma trim_trim s : trim (trim s) = trim s.
Proof. apply trim_fixed; [apply trim_head | apply trim_last]. Qed.

(** What one round of the loop does to the form: nothing, or one text
    field set, or one file set; the name is proper and the value is a
    trimmed text. *)
Lemma decodePart_cases form part :
  decodePart form part = form \/
  exists name v,
    properName name /\
    (decodePart form part
       = {| fields := <[name := trim v]> (fields form); files := files form |} \/
     decodePart form part
       = {| fields := fields form;
            files := <[name := fromBinaryString (trim v)]> (files form) |}).
Proof.
  unfold decodePart. destruct (includes formData part); [| now left].
  destruct (matchAttr nameKey _) as [name |] eqn:En; [| now left].
  case_bool_decide; [now left |].
  right. exists name, (join blankLine (tl (split blankLine part))).
  split; [now apply matchAttr_proper in En |].
  rewrite dropFinalCRLF_trim. destruct (matchAttr filenameKey _); [now right | now left].
Qed.

(** An invariant of the form that every round keeps holds of the result. *)
Lemma decode_invariant (I : Form -> Prop) parts form :
  I form -> (forall f p, I f -> I (decodePart f p)) ->
  I (fold_left decodePart parts form).
Proof.
  intros H0 Hstep. revert form H0.
  induction parts as [| p parts IH]; intros form H0; simpl; [exact H0 |].
  apply IH, Hstep, H0.
Qed.

Lemma parse_inv contentType chunks form :
  parseMultipartData contentType chunks = Returned form ->
  exists parts, form = fold_left decodePart parts emptyForm.
Proof.
  unfold parseMultipartData. destruct (boundaryOf contentType) as [[| c b] |];
    try discriminate.
  intros [= <-]. eexists. reflexivity.
Qed.

(** X5: in every form the decoder returns, the names of the text fields
    and of the files are non-empty and hold no quote, and the value of a
    text field has no white space at either end. *)
Theorem decoded_form_wellformed (contentType : option str)
    (chunks : list (list byte)) (form : Form) :
  parseMultipartData contentType chunks = Returned form ->
  (forall k v, fields form !! k = Some v -> properName k /\ trim v = v) /\
  (forall k b, files form !! k = Some b -> properName k).
Proof.
  intros H. apply parse_inv in H as (parts & ->).
  apply (decode_invariant
           (fun f => (forall k v, fields f !! k = Some v -> properName k /\ trim v = v) /\
                     (forall k b, files f !! k = Some b -> properName k))).
  - split; intros k v Hk; cbn in Hk; rewrite lookup_empty in Hk; discriminate.
  - intros f p [Hf Hb].
    destruct (decodePart_cases f p) as [-> | (name & v & Hn & [-> | ->])];
      [now split | |]; cbn [fields files]; split.
    + intros k w [[<- <-] | [_ H]]%lookup_insert_Some;
        [split; [exact Hn | apply trim_trim] | now apply Hf in H].
    + exact Hb.
    + exact Hf.
    + intros k w [[<- _] | [_ H]]%lookup_insert_Some;
        [exact Hn | now apply Hb in H].
Qed.

Lemma decoded_form_wellformed_witness :
  exists form,
    parseMultipartData contentTypeB [pbmUpload] = Returned form /\
    forall k b, files form !! k = Some b -> properName k.
Proof.
  eexists. split; [reflexivity |].
  apply (decoded_form_wellformed contentTypeB [pbmUpload] _ eq_refl).
Defined.

Lemma decodePart_keeps form part (k : str) :
  (is_Some (fields form !! k) -> is_Some (fields (decodePart form part) !! k)) /\
  (is_Some (files form !! k) -> is_Some (files (decodePart form part) !! k)).
Proof.
  destruct (decodePart_cases form part) as [-> | (name & v & _ & [-> | ->])];
    cbn [fields files]; split; intros H; try exact H;
    apply lookup_insert_is_Some;
    (destruct (decide (name = k)); [now left | now right]).
Qed.

(** X6: the loop over the parts never removes an entry: a name that has a
    text value, or a file, before a part is decoded still has one after. *)
Theorem decode_keeps_entries (parts : list str) (form : Form) (k : str) :
  (is_Some (fields form !! k) ->
   is_Some (fields (fold_left decodePart parts form) !! k)) /\
  (is_Some (files form !! k) ->
   is_Some (files (fold_left decodePart parts form) !! k)).
Proof.
  revert form. induction parts as [| p parts IH]; intros form; simpl;
    [tauto |].
  destruct (IH (decodePart form p)) as [IHf IHb].
  destruct (decodePart_keeps form p k) as [Hf Hb].
  split; intros H; [apply IHf, Hf, H | apply IHb, Hb, H].
Qed.

Lemma decode_keeps_entries_witness :
  is_Some (files (fold_left decodePart
                    (split (lit "--B") (toBinaryString namelessUpload))
                    {| fields := ∅; files := {[ lit "image" := [] ]} |})
           !! lit "image").
Proof.
  apply decode_keeps_entries. vm_compute. now eexists.
Defined.







(** A part named [__proto__] stores nothing: neither object gets a
    property of that name. *)
Example proto_part_stores_nothing :
  decodePart emptyForm
    (CRLF ++ lit "Content-Disposition: form-data; " ++ attr "name" (lit "__proto__")
     ++ CRLF ++ CRLF ++ lit "x" ++ CRLF)
  = emptyForm.
Proof. vm_compute. reflexivity. Qed.

(** X9: the boundary is all the text that follows the first [boundary=] of
    the content-type header, up to a second [boundary=] if there is one:
    when none follows, it is the whole rest of the header, parameters and
    quotes that come after the token included. *)
Theorem boundary_is_rest_of_header (ct pre rest : str) :
  breakOn (lit "boundary=") ct = Some (pre, rest) ->
  includes (lit "boundary=") rest = false ->
  boundaryOf (Some ct) = Some rest.
Proof.
  intros Hb Hrest. unfold boundaryOf, split.
  change (lit "boundary=") with (98%N :: lit "oundary=") in *.
  rewrite (splitFuel_some _ _ _ pre rest); [| discriminate | lia | exact Hb].
  rewrite splitFuel_none; [reflexivity |].
  unfold includes in Hrest. now destruct (breakOn _ rest).
Qed.

Lemma boundary_is_rest_of_header_witness :
  boundaryOf (Some (lit "multipart/form-data; boundary=B; charset=utf-8"))
    = Some (lit "B; charset=utf-8").
Proof.
  apply (boundary_is_rest_of_header _ (lit "multipart/form-data; "));
    vm_compute; reflexivity.
Defined.

(** ** Routing and error answers of the handler *)

Lemma streq_true (a b : str) : streq a b = true <-> a = b.
Proof. apply bool_decide_eq_true. Qed.

Lemma streq_false (a b : str) : streq a b = false <-> a <> b.
Proof. apply bool_decide_eq_false. Qed.

Lemma processImage_status cfg gd gt fields image :
  statusCode (processImage cfg gd gt fields image) = 200%N.
Proof. reflexivity. Qed.

Lemma parse_error contentType chunks e :
  parseMultipartData contentType chunks = Thrown e -> e = noBoundary.
Proof.
  unfold parseMultipartData.
  destruct (boundaryOf contentType) as [[| c b] |]; congruence.
Qed.

(** Case analysis along the tests of the handler, the processing block
    left folded. *)
Ltac route :=
  repeat match goal with
         | |- context [if ?b then _ else _] => destruct b eqn:?
         | |- context [match ?x with Returned _ => _ | Thrown _ => _ end] =>
             destruct x as [? | ?] eqn:?
         | |- context [match ?x with Some _ => _ | None => _ end] =>
             destruct x eqn:?
         | |- context [let (_, _) := ?x in _] => destruct x
         | |- context [match ?x with [] => _ | _ :: _ => _ end] => destruct x
         end.

Section Routing.

Variable cfg : Config.
Variables getDescriptionWithUsage getTagsWithUsage : GenArgs -> outcome GenResult.
Variable stage : list byte -> outcome (list byte).
Variable checkProviderHealth : outcome (str * option str).

Let handle : Request -> Response :=
  handleRequest cfg getDescriptionWithUsage getTagsWithUsage stage
    checkProviderHealth.

(** X10: the status of an answer is 200, 400, 404, 500 or 503, and it is
    404 exactly when the request is neither an OPTIONS request, nor GET
    /health, nor POST /process. *)
Theorem status_codes (req : Request) :
  In (statusCode (handle req)) [200; 400; 404; 500; 503]%N /\
  (statusCode (handle req) = 404%N <->
     method req <> lit "OPTIONS" /\
     ~ (pathname req = lit "/health" /\ method req = lit "GET") /\
     ~ (pathname req = lit "/process" /\ method req = lit "POST")).
Proof.
  subst handle. unfold handleRequest.
  destruct (streq (method req) (lit "OPTIONS")) eqn:Eo.
  { apply streq_true in Eo. cbn. split; [tauto |]. split; [discriminate | tauto]. }
  apply streq_false in Eo.
  destruct (streq (pathname req) (lit "/health") && streq (method req) (lit "GET"))
    eqn:Eh.
  { apply andb_true_iff in Eh as [H1%streq_true H2%streq_true].
    route; cbn; (split; [tauto |]); (split; [discriminate | tauto]). }
  destruct (streq (pathname req) (lit "/process") && streq (method req) (lit "POST"))
    eqn:Ep.
  { apply andb_true_iff in Ep as [H1%streq_true H2%streq_true].
    route; rewrite ?processImage_status; cbn;
      (split; [tauto |]); (split; [discriminate | tauto]). }
  cbn. split; [tauto |]. split; [intros _ | reflexivity].
  split; [exact Eo |].
  rewrite andb_false_iff, !streq_false in Eh, Ep. tauto.
Qed.

(** X11: an answer is a success answer exactly when the request reaches the
    processing block: a POST to /process whose content type names
    multipart/form-data, whose body decodes to a form with a file in the
    field image, and whose image could be staged. *)
Theorem success_iff_accepted (req : Request) :
  (exists r, body (handle req) = ProcessBody r) <->
  exists fields image, accepted stage req fields image.
Proof.
  subst handle. split.
  - unfold handleRequest. intros [r Hr]. revert Hr.
    destruct (streq (method req) (lit "OPTIONS")) eqn:Eo; [discriminate |].
    destruct (streq (pathname req) (lit "/health") && streq (method req) (lit "GET"));
      [route; discriminate |].
    destruct (streq (pathname req) (lit "/process") && streq (method req) (lit "POST"))
      eqn:Ep; [| unfold sendError; route; discriminate].
    apply andb_true_iff in Ep as [H1%streq_true H2%streq_true].
    destruct (includes _ _) eqn:Ei; cbn [negb]; [| unfold sendError; route; discriminate].
    destruct (parseMultipartData _ _) as [form | e] eqn:Epar;
      [| unfold sendError; route; discriminate].
    destruct (files form !! lit "image") as [buf |] eqn:Eimg;
      [| unfold sendError; route; discriminate].
    destruct (stage buf) as [image | e] eqn:Est;
      [| unfold sendError; route; discriminate].
    intros _. exists (fields form), image. repeat split; try assumption.
    exists form, buf. repeat split; assumption.
  - intros (fields & image & Hacc).
    rewrite (handleRequest_accepted _ _ _ _ _ _ _ _ Hacc). eexists. reflexivity.
Qed.

(** X12: a request to POST /process that names multipart/form-data in its
    content type but gives no boundary is answered 500, Internal server
    error, not 400; the decoder's message is in the details when verbose. *)
Theorem missing_boundary_is_500 (req : Request) (ct : str) :
  method req = lit "POST" ->
  pathname req = lit "/process" ->
  contentType req = Some ct ->
  includes (lit "multipart/form-data") ct = true ->
  includes (lit "boundary=") ct = false ->
  handle req
    = {| statusCode := 500;
         body := ErrorBody (lit "Internal server error")
                   (if VERBOSE cfg then Some noBoundary else None) |}.
Proof.
  intros Hm Hp Hct Hi Hb. subst handle. unfold handleRequest.
  rewrite Hm, Hp, Hct.
  assert (orDefault (Some ct) [] = ct) as -> by now destruct ct.
  rewrite Hi.
  assert (parseMultipartData (Some ct) (chunks req) = Thrown noBoundary) as ->.
  { unfold parseMultipartData.
    assert (boundaryOf (Some ct) = None) as ->; [| reflexivity].
    apply split_second; [discriminate | exact Hb]. }
  reflexivity.
Qed.

(** X13: an error answer carries details only when the server is verbose,
    and only with status 500; the answers 400 and 404 never do. *)
Theorem details_only_when_verbose (req : Request) (message details : str) :
  body (handle req) = ErrorBody message (Some details) ->
  VERBOSE cfg = true /\ statusCode (handle req) = 500%N.
Proof.
  subst handle. unfold handleRequest, sendError.
  destruct (streq (method req) (lit "OPTIONS")); [discriminate |].
  destruct (streq (pathname req) (lit "/health") && streq (method req) (lit "GET"));
    [route; discriminate |].
  destruct (streq (pathname req) (lit "/process") && streq (method req) (lit "POST"));
    [| destruct (VERBOSE cfg); discriminate].
  destruct (includes _ _); cbn [negb]; [| destruct (VERBOSE cfg); discriminate].
  destruct (parseMultipartData _ _) as [form | e].
  - destruct (files form !! lit "image") as [buf |];
      [| destruct (VERBOSE cfg); discriminate].
    destruct (stage buf); [discriminate |].
    destruct (VERBOSE cfg); [now split | discriminate].
  - destruct (VERBOSE cfg); [now split | discriminate].
Qed.

End Routing.

Lemma missing_boundary_is_500_witness :
  handleRequest defaults unsupported unsupported Returned (Thrown []) bareRequest
    = {| statusCode := 500;
         body := ErrorBody (lit "Internal server error") None |}.
Proof.
  apply (missing_boundary_is_500 defaults unsupported unsupported Returned
           (Thrown []) bareRequest (lit "multipart/form-data"));
    vm_compute; reflexivity.
Defined.

Lemma details_only_when_verbose_witness :
  VERBOSE verbose = true /\
  statusCode (handleRequest verbose unsupported unsupported Returned (Thrown [])
                bareRequest) = 500%N.
Proof.
  apply (details_only_when_verbose verbose unsupported unsupported Returned
           (Thrown []) bareRequest (lit "Internal server error") noBoundary).
  vm_compute. reflexivity.
Defined.

Lemma success_iff_accepted_witness :
  exists r,
    body (handleRequest defaults unsupported unsupported Returned (Thrown [])
            pbmRequest) = ProcessBody r.
Proof.
  apply (success_iff_accepted defaults unsupported unsupported Returned
           (Thrown []) pbmRequest).
  exists ∅, (fromBinaryString (trim pbm)).
  repeat split; try (vm_compute; reflexivity).
  eexists _, _. repeat split; vm_compute; reflexivity.
Defined.

(** X14: the two revisions of the handler give the same answer to every
    request, the health route apart, unless the request reaches the
    processing block; there both answer 200 and name the same provider,
    model and tasks. *)
Theorem revisions_agree (cfg : Config)
    (getDescription : GenArgs -> outcome (option str))
    (getTags : GenArgs -> outcome Legacy.TagsResult)
    (getDescriptionWithUsage getTagsWithUsage : GenArgs -> outcome GenResult)
    (stage : list byte -> outcome (list byte))
    (checkProviderHealth : outcome (str * option str)) (req : Request) :
  ~ (pathname req = lit "/health" /\ method req = lit "GET") ->
  Legacy.handleRequest cfg getDescription getTags stage req
    = handleRequest cfg getDescriptionWithUsage getTagsWithUsage stage
        checkProviderHealth req
  \/
  exists r1 r2,
    Legacy.handleRequest cfg getDescription getTags stage req
      = {| statusCode := 200; body := ProcessBody r1 |} /\
    handleRequest cfg getDescriptionWithUsage getTagsWithUsage stage
        checkProviderHealth req
      = {| statusCode := 200; body := ProcessBody r2 |} /\
    Reply.provider r1 = Reply.provider r2 /\
    Reply.model r1 = Reply.model r2 /\
    Reply.tasks r1 = Reply.tasks r2.
Proof.
  intros Hh. unfold Legacy.handleRequest, handleRequest.
  destruct (streq (method req) (lit "OPTIONS")); [now left |].
  destruct (streq (pathname req) (lit "/health") && streq (method req) (lit "GET"))
    eqn:Eh.
  { apply andb_true_iff in Eh as [H1%streq_true H2%streq_true]. tauto. }
  destruct (streq (pathname req) (lit "/process") && streq (method req) (lit "POST"));
    [| now left].
  destruct (negb _); [now left |].
  destruct (parseMultipartData _ _) as [form | e]; [| now left].
  destruct (files form !! lit "image") as [buf |]; [| now left].
  destruct (stage buf) as [image | e]; [| now left].
  right. eexists _, _. repeat split.
Qed.

Lemma revisions_agree_witness :
  Legacy.handleRequest defaults (fun _ => Thrown []) (fun _ => Thrown []) Returned
      bareRequest
    = handleRequest defaults unsupported unsupported Returned (Thrown [])
        bareRequest.
Proof.
  destruct (revisions_agree defaults (fun _ => Thrown []) (fun _ => Thrown [])
              unsupported unsupported Returned (Thrown []) bareRequest)
    as [E | (r1 & r2 & E1 & _)].
  - intros [H _]. vm_compute in H. discriminate H.
  - exact E.
  - vm_compute in E1. discriminate E1.
Defined.

(** ** More on the processing block *)

(** X15: a task that the request does not ask for makes no provider call:
    the answer does not depend on the function of that task; and when no
    task is asked for, the answer has the empty description, no tag, the
    empty raw tag text and no token usage. *)
Theorem unrequested_task_not_called (cfg : Config)
    (gd gd' gt gt' : GenArgs -> outcome GenResult)
    (fields : gmap (list N) (list N)) (image : list byte) :
  (wantsDescription cfg fields = false ->
   processImage cfg gd gt fields image = processImage cfg gd' gt fields image) /\
  (wantsTags cfg fields = false ->
   processImage cfg gd gt fields image = processImage cfg gd gt' fields image) /\
  (wantsDescription cfg fields = false -> wantsTags cfg fields = false ->
   exists r,
     processImage cfg gd gt fields image
       = {| statusCode := 200; body := ProcessBody r |} /\
     Reply.description r = [] /\ Reply.tags r = [] /\
     Reply.rawTagsText r = Some [] /\ Reply.tokenUsage r = None).
Proof.
  unfold processImage, runTasks. repeat split.
  - intros ->. reflexivity.
  - intros ->. reflexivity.
  - intros -> ->. eexists. split; [reflexivity |]. repeat split.
Qed.

Lemma unrequested_task_not_called_witness :
  exists r,
    processImage defaults (fixed (lit "a cat")) (fixed (lit "cat")) noTask []
      = {| statusCode := 200; body := ProcessBody r |} /\
    Reply.description r = [] /\ Reply.tags r = [] /\
    Reply.rawTagsText r = Some [] /\ Reply.tokenUsage r = None.
Proof.
  apply (unrequested_task_not_called defaults (fixed (lit "a cat")) unsupported
           (fixed (lit "cat")) unsupported noTask []);
    vm_compute; reflexivity.
Defined.

(** X16: in every success answer the tags are the clean tag list of the
    raw tag text of the same answer, and there is no tag when the raw text
    is absent. *)
Theorem tags_follow_raw_text (cfg : Config)
    (getDescriptionWithUsage getTagsWithUsage : GenArgs -> outcome GenResult)
    (fields : gmap (list N) (list N)) (image : list byte) :
  exists r,
    processImage cfg getDescriptionWithUsage getTagsWithUsage fields image
      = {| statusCode := 200; body := ProcessBody r |} /\
    Reply.tags r
      = match Reply.rawTagsText r with
        | Some t => normalizeTags t
        | None => []
        end.
Proof.
  eexists. split; [reflexivity |]. cbn. unfold runTasks, describeStep, tagStep.
  destruct (wantsDescription cfg fields), (wantsTags cfg fields);
    repeat match goal with
           | |- context [match ?g ?a with Returned _ => _ | Thrown _ => _ end] =>
               destruct (g a) as [[[?|] ?] | ?]
           end; reflexivity.
Qed.

Lemma orDefault_nonempty (x : option str) (d : str) :
  d <> [] -> orDefault x d <> [].
Proof. intros Hd. unfold orDefault. destruct x as [[| c s] |]; cbn; congruence. Qed.

Lemma split_nonempty sep s : split sep s = [] -> sep = [] /\ s = [].
Proof.
  unfold split. destruct sep as [| c sep].
  - destruct s; [tauto | discriminate].
  - intros H. now apply splitFuel_nonempty in H.
Qed.

(** X17: under a configuration read from the environment, whatever the
    environment and the form, a success answer names a non-empty provider,
    a non-empty model and at least one task. *)
Theorem answer_names_its_settings (env : gmap (list N) (list N))
    (getDescriptionWithUsage getTagsWithUsage : GenArgs -> outcome GenResult)
    (fields : gmap (list N) (list N)) (image : list byte) :
  exists r,
    processImage (Startup.loadConfig env) getDescriptionWithUsage
        getTagsWithUsage fields image
      = {| statusCode := 200; body := ProcessBody r |} /\
    Reply.provider r <> [] /\ Reply.model r <> [] /\ Reply.tasks r <> [].
Proof.
  eexists. split; [reflexivity |].
  cbn [Reply.provider Reply.model Reply.tasks]. repeat split.
  - apply orDefault_nonempty. unfold Startup.loadConfig. cbn [PROVIDER].
    apply orDefault_nonempty. discriminate.
  - apply orDefault_nonempty. discriminate.
  - unfold requestTasks, Startup.loadConfig. cbn [TASKS].
    destruct (orElse (fields !! lit "tasks") None) as [t |] eqn:E.
    + intros H. apply split_nonempty in H as [H _]. discriminate H.
    + destruct (orElse (env !! lit "EXIF_AI_TASKS") None) as [t |]; [| discriminate].
      intros H. apply split_nonempty in H as [H _]. discriminate H.
Qed.

(** ** The health check *)

Section HealthCheck.

Import Health.

Variable cfg : Config.
Variable env : gmap (list N) (list N).
Variable toLowerCase : str -> str.
Variable fetch : FetchRequest -> outcome FetchResponse.
Variable getModel : str -> option str -> outcome bool.

Let check : str * option str :=
  checkProviderHealth cfg env toLowerCase fetch getModel.

Lemma probe_cases request what :
  match probe fetch request what with
  | Returned h => h = healthy \/ exists e, e <> [] /\ h = unhealthy e
  | Thrown _ => True
  end.
Proof.
  unfold probe. destruct (fetch request) as [r | e]; [| exact I].
  destruct (ok r); [now left | right]. eexists. split; [| reflexivity].
  change (what ++ lit " error: " ++ decimal (status r) ++ lit " " ++ statusText r)
    with (what ++ 32%N :: lit "error: " ++ decimal (status r) ++ lit " " ++ statusText r).
  now destruct what.
Qed.

Lemma check_cases :
  check = healthy \/ exists e, e <> [] /\ check = unhealthy e.
Proof.
  subst check. unfold checkProviderHealth, checkBody.
  assert (Hcatch : forall e : str,
             orDefault (Some e) (lit "Unknown error connecting to provider") <> [])
    by (intros e; apply orDefault_nonempty; discriminate).
  repeat match goal with
         | |- context [probe fetch ?r ?w] =>
             let H := fresh in
             pose proof (probe_cases r w) as H;
             destruct (probe fetch r w); [exact H | right; eexists; split; [apply Hcatch | reflexivity]]
         | |- context [if ?b then _ else _] => destruct b
         | |- context [match env !! ?k with _ => _ end] => destruct (env !! k) as [[| ? ?] |]
         | |- context [match orElse ?a ?b with _ => _ end] => destruct (orElse a b) as [[| ? ?] |]
         | |- context [match getModel ?a ?b with _ => _ end] => destruct (getModel a b) as [[|] | ?]
         end;
    try (now left); right; eexists; (split; [| reflexivity]); discriminate.
Qed.

(** X18: the health check never fails: its status is healthy without an
    error text, or unhealthy with a non-empty error text; and GET /health
    answers 200 in the first case and 503 in the second. *)
Theorem health_answer
    (getDescriptionWithUsage getTagsWithUsage : GenArgs -> outcome GenResult)
    (stage : list byte -> outcome (list byte)) (req : Request) :
  pathname req = lit "/health" ->
  method req = lit "GET" ->
  (check = healthy /\
   handleRequest cfg getDescriptionWithUsage getTagsWithUsage stage
       (Returned check) req
     = {| statusCode := 200; body := HealthBody (lit "healthy") None |})
  \/
  (exists e, e <> [] /\ check = unhealthy e /\
   handleRequest cfg getDescriptionWithUsage getTagsWithUsage stage
       (Returned check) req
     = {| statusCode := 503; body := HealthBody (lit "unhealthy") (Some e) |}).
Proof.
  intros Hp Hm. unfold handleRequest. rewrite Hp, Hm.
  destruct check_cases as [-> | (e & He & ->)].
  - left. split; reflexivity.
  - right. exists e. repeat split. exact He.
Qed.

(** X19: the network is contacted for the providers google, openai and
    ollama only: for the provider test, and for every provider whose lower
    case name is none of the three, the status does not depend on what
    [fetch] does. *)
Theorem health_without_network (fetch' : FetchRequest -> outcome FetchResponse) :
  PROVIDER cfg = lit "test" \/
  (toLowerCase (PROVIDER cfg) <> lit "google" /\
   toLowerCase (PROVIDER cfg) <> lit "openai" /\
   toLowerCase (PROVIDER cfg) <> lit "ollama") ->
  check = checkProviderHealth cfg env toLowerCase fetch' getModel.
Proof.
  subst check. unfold checkProviderHealth, checkBody.
  intros [-> | (Hg & Ho & Hl)]; [reflexivity |].
  apply streq_false in Hg, Ho, Hl. now rewrite Hg, Ho, Hl.
Qed.

(** X20: for the provider anthropic, in any letter case that
    [toLowerCase] maps to that name, the status is healthy exactly when the
    variable ANTHROPIC_API_KEY starts with sk-ant-; nothing else is
    looked at. *)
Theorem anthropic_health :
  PROVIDER cfg <> lit "test" ->
  toLowerCase (PROVIDER cfg) = lit "anthropic" ->
  (check = healthy <->
   exists key, env !! lit "ANTHROPIC_API_KEY" = Some key /\
               startsWith (lit "sk-ant-") key = true).
Proof.
  intros Ht Hp. subst check. unfold checkProviderHealth, checkBody.
  apply streq_false in Ht. rewrite Ht, Hp.
  assert (streq (lit "anthropic") (lit "google") = false) as -> by reflexivity.
  assert (streq (lit "anthropic") (lit "openai") = false) as -> by reflexivity.
  assert (streq (lit "anthropic") (lit "ollama") = false) as -> by reflexivity.
  assert (streq (lit "anthropic") (lit "anthropic") = true) as -> by reflexivity.
  destruct (env !! lit "ANTHROPIC_API_KEY") as [[| c k] |] eqn:E.
  - split; [discriminate | intros (key & [= <-] & H); discriminate H].
  - destruct (startsWith (lit "sk-ant-") (c :: k)) eqn:Es.
    + split; [intros _; now eexists | reflexivity].
    + split; [discriminate | intros (key & [= <-] & H); congruence].
  - split; [discriminate | intros (key & [=] & _)].
Qed.

(** X21: for the provider ollama the status is healthy exactly when the
    request for /api/tags, under OLLAMA_BASE_URL or else under
    http://localhost:11434, is answered with [ok]; a failed request and an
    answer that is not [ok] both give unhealthy. *)
Theorem ollama_health :
  PROVIDER cfg <> lit "test" ->
  toLowerCase (PROVIDER cfg) = lit "ollama" ->
  (check = healthy <->
   exists response,
     fetch {| url := orDefault (env !! lit "OLLAMA_BASE_URL")
                       (lit "http://localhost:11434") ++ lit "/api/tags";
              headers := [] |} = Returned response /\
     ok response = true).
Proof.
  intros Ht Hp. subst check. unfold checkProviderHealth, checkBody, probe.
  apply streq_false in Ht. rewrite Ht, Hp.
  assert (streq (lit "ollama") (lit "google") = false) as -> by reflexivity.
  assert (streq (lit "ollama") (lit "openai") = false) as -> by reflexivity.
  assert (streq (lit "ollama") (lit "ollama") = true) as -> by reflexivity.
  destruct (fetch _) as [r | e].
  - destruct (ok r) eqn:Eok.
    + split; [intros _; now exists r | reflexivity].
    + split; [discriminate | intros (r' & [= <-] & H); congruence].
  - split; [discriminate | intros (r' & [=] & _)].
Qed.

End HealthCheck.

Lemma health_answer_witness :
  handleRequest anthropicConfig unsupported unsupported Returned
      (Returned (Health.checkProviderHealth anthropicConfig anthropicEnv
                   asciiLower offline noModel))
      healthRequest
    = {| statusCode := 200; body := HealthBody (lit "healthy") None |}.
Proof.
  destruct (health_answer anthropicConfig anthropicEnv asciiLower offline noModel
              unsupported unsupported Returned healthRequest eq_refl eq_refl)
    as [[_ E] | (e & _ & E & _)].
  - exact E.
  - vm_compute in E. discriminate E.
Defined.

Lemma health_without_network_witness :
  Health.checkProviderHealth anthropicConfig anthropicEnv asciiLower offline noModel
    = Health.checkProviderHealth anthropicConfig anthropicEnv asciiLower
        unauthorized noModel.
Proof.
  apply (health_without_network anthropicConfig anthropicEnv asciiLower offline
           noModel unauthorized).
  right. repeat split; vm_compute; discriminate.
Defined.

Lemma anthropic_health_witness :
  Health.checkProviderHealth anthropicConfig anthropicEnv asciiLower offline noModel
    = Health.healthy.
Proof.
  apply (anthropic_health anthropicConfig anthropicEnv asciiLower offline noModel).
  - vm_compute. discriminate.
  - vm_compute. reflexivity.
  - exists (lit "sk-ant-0123"). split; vm_compute; reflexivity.
Defined.

Lemma ollama_health_witness :
  Health.checkProviderHealth defaults ∅ asciiLower online noModel = Health.healthy.
Proof.
  apply (ollama_health defaults ∅ asciiLower online noModel).
  - vm_compute. discriminate.
  - vm_compute. reflexivity.
  - eexists. split; reflexivity.
Defined.
